(** * Hackflight: the tick dispatcher, the arming / failsafe logic and the
      inner demand pipeline of [hackflight.hpp], and [IMU::computeAccelZ]
      of [imu.hpp], as a shallow embedding.

    The C++ object [Hackflight] becomes a record that is passed from
    statement to statement.  The classes it talks to through pointers or
    members (Board, Receiver, Stabilize, Mixer, Altitude, MSP) are not part
    of the two files: they form an interface, [Platform], whose commands act
    on one shared, opaque world and whose queries read it.  Every command
    issued to a collaborator is also appended to a call log, oldest first,
    so that statements such as "the mixer receives a cut-motors command"
    can be read off the final state. *)

From Stdlib Require Import ZArith List Bool Lia.
Import ListNotations.
Open Scope Z_scope.

(** ** Machine integers *)

(** Conversion to [uint32_t] and to [uint8_t]. *)
Definition to_u32 (z : Z) : Z := z mod 2 ^ 32.
Definition to_u8 (z : Z) : Z := z mod 2 ^ 8.

(** ** The periodic-task gate *)

Module TimedTask.

(** Modelled from the spec: the class [TimedTask] of [timedtask.hpp],
    which [hackflight.hpp] includes and uses through [init],
    [checkAndUpdate] and [ready]; the header itself is missing.  The spec
    (section 4.1) calls the three operations [initialize],
    [consumeIfElapsed] and [peekElapsed], and the two fields [period] and
    [lastFired]. *)
Record t : Type := mk { period : Z; lastFired : Z }.

(** Modelled from the spec: "[initialize(period)]: sets the interval;
    baseline firing time starts at a defined epoch (time zero)"
    ([TimedTask::init] is missing). *)
Definition init (p : Z) : t := {| period := p; lastFired := 0 |}.

(** Modelled from the spec: the elapsed-time test shared by both checks,
    "[now - lastFired >= period]" (the missing header's test).  The
    timestamps are the [uint32_t] values that [Hackflight::update] passes
    (spec section 6: a u32 clock), so the difference is taken as C++ takes
    it on [uint32_t], modulo 2^32. *)
Definition elapsed (tk : t) (now : Z) : bool :=
  period tk <=? to_u32 (now - lastFired tk).

(** Modelled from the spec: "[consumeIfElapsed(now) -> bool]: returns true
    and advances [lastFired = now] iff [now - lastFired >= period];
    otherwise returns false with no mutation"
    ([TimedTask::checkAndUpdate] is missing). *)
Definition checkAndUpdate (tk : t) (now : Z) : bool * t :=
  if elapsed tk now
  then (true, {| period := period tk; lastFired := now |})
  else (false, tk).

(** Modelled from the spec: "[peekElapsed(now) -> bool]: pure query,
    identical elapsed-time test, never mutates [lastFired]"
    ([TimedTask::ready] is missing). *)
Definition ready (tk : t) (now : Z) : bool := elapsed tk now.

End TimedTask.

(** ** Orientation triples *)

(** [float eulerAngles[3]], indexed in the source by the constants
    [AXIS_ROLL], [AXIS_PITCH] and [AXIS_YAW]; their declaration is not in
    the two files, so the three cells are named after the constants. *)
Record vec3 (F : Type) : Type := mkVec3 {
  AXIS_ROLL : F;
  AXIS_PITCH : F;
  AXIS_YAW : F
}.
Arguments mkVec3 {F} _ _ _.
Arguments AXIS_ROLL {F} _.
Arguments AXIS_PITCH {F} _.
Arguments AXIS_YAW {F} _.

Definition set_yaw {F : Type} (y : F) (v : vec3 F) : vec3 F :=
  {| AXIS_ROLL := AXIS_ROLL v; AXIS_PITCH := AXIS_PITCH v; AXIS_YAW := y |}.

(** ** Commands sent to the collaborators *)

(** One constructor per method that [hackflight.hpp] calls for its effect.
    [F] is the type of C++ [float] values, [M] the type behind [Model *]. *)
Inductive Call (F M : Type) : Type :=
| BoardInit                                   (* board->init() *)
| BoardDelayMilliseconds (ms : Z)             (* board->delayMilliseconds(ms) *)
| BoardLedSet (on : bool)                     (* board->ledSet(on) *)
| BoardGetImu                                 (* board->getImu(eulerAngles, gyro) *)
| ReceiverInit                                (* receiver->init() *)
| ReceiverUpdate                              (* receiver->update() *)
| ReceiverComputeExpo (yawAngle : F)          (* receiver->computeExpo(yawAngle) *)
| StabInit (model : M)                        (* stab.init(_model) *)
| StabResetIntegral                           (* stab.resetIntegral() *)
| StabUpdate (angles gyro : vec3 F)           (* stab.update(receiver->demands, angles, gyro) *)
| MixerInit                                   (* mixer.init(board) *)
| MixerCutMotors                              (* mixer.cutMotors() *)
| MixerRunDisarmed                            (* mixer.runDisarmed() *)
| MixerRunArmed (throttle roll pitch yaw : F) (* mixer.runArmed(...) *)
| MspInit                                     (* msp.init(&mixer, receiver, board) *)
| MspUpdate (angles : vec3 F) (armed : bool)  (* msp.update(eulerAngles, armed) *)
| AltiInit (model : M)                        (* alti.init(board, _model) *)
| AltiComputePid (armed : bool)               (* alti.computePid(armed) *)
| AltiHandleAuxSwitch (aux : Z) (throttle : F) (* alti.handleAuxSwitch(auxState, throttle) *)
| AltiFuseWithImu (angles : vec3 F) (armed : bool) (* alti.fuseWithImu(eulerAngles, armed) *)
| AltiModifyDemand.                           (* alti.modifyDemand(receiver->demands[THROTTLE]) *)

Arguments BoardInit {F M}.
Arguments BoardDelayMilliseconds {F M} _.
Arguments BoardLedSet {F M} _.
Arguments BoardGetImu {F M}.
Arguments ReceiverInit {F M}.
Arguments ReceiverUpdate {F M}.
Arguments ReceiverComputeExpo {F M} _.
Arguments StabInit {F M} _.
Arguments StabResetIntegral {F M}.
Arguments StabUpdate {F M} _ _.
Arguments MixerInit {F M}.
Arguments MixerCutMotors {F M}.
Arguments MixerRunDisarmed {F M}.
Arguments MixerRunArmed {F M} _ _ _ _.
Arguments MspInit {F M}.
Arguments MspUpdate {F M} _ _.
Arguments AltiInit {F M} _.
Arguments AltiComputePid {F M} _.
Arguments AltiHandleAuxSwitch {F M} _ _.
Arguments AltiFuseWithImu {F M} _ _.
Arguments AltiModifyDemand {F M}.

(** Classifiers used to count calls in a log. *)
Definition is_mixer_call {F M : Type} (c : Call F M) : bool :=
  match c with
  | MixerCutMotors | MixerRunDisarmed | MixerRunArmed _ _ _ _ => true
  | _ => false
  end.

Definition is_computePid {F M : Type} (c : Call F M) : bool :=
  match c with AltiComputePid _ => true | _ => false end.

Definition is_receiverUpdate {F M : Type} (c : Call F M) : bool :=
  match c with ReceiverUpdate => true | _ => false end.

Definition is_handleAuxSwitch {F M : Type} (c : Call F M) : bool :=
  match c with AltiHandleAuxSwitch _ _ => true | _ => false end.

Definition count {A : Type} (p : A -> bool) (l : list A) : nat :=
  length (filter p l).

Definition is_runArmed {F M : Type} (c : Call F M) : bool :=
  match c with MixerRunArmed _ _ _ _ => true | _ => false end.

Definition is_resetIntegral {F M : Type} (c : Call F M) : bool :=
  match c with StabResetIntegral => true | _ => false end.

Definition is_led_on {F M : Type} (c : Call F M) : bool :=
  match c with BoardLedSet true => true | _ => false end.

(** LED and delay commands, the only ones [flashLed] sends. *)
Definition is_flash_call {F M : Type} (c : Call F M) : bool :=
  match c with
  | BoardLedSet _ | BoardDelayMilliseconds _ => true
  | _ => false
  end.

(** The milliseconds of waiting that a list of commands asks for. *)
Definition total_delay {F M : Type} (l : list (Call F M)) : Z :=
  fold_right
    (fun c acc =>
       match c with BoardDelayMilliseconds ms => ms + acc | _ => acc end)
    0 l.

(** ** The collaborators *)

(** What the orchestrator needs from the code that is not in the two
    files.  [float] stands for C++ [float] with the handful of operations
    the source applies to it; [World] is the joint state of board,
    receiver, stabilizer, mixer, altitude estimator and serial link (they
    hold pointers to one another, so a command to one may change what
    another reports).  Commands transform the world through [exec];
    queries read it and leave it as it is.  [getAuxState] is declared in
    the missing [receiver.hpp]; it is taken to return a [uint8_t], the
    type of the member [auxState] it is stored in and compared with. *)
Record Platform : Type := {
  float : Type;
  fsub : float -> float -> float;        (* a - b *)
  flt : float -> float -> bool;          (* a < b *)
  fzero : float;                         (* the literal 0 *)
  fabs : float -> float;                 (* fabs(a) *)
  fadd_2pi : float -> float;             (* a + 2*M_PI, stored back as float *)
  Model : Type;
  World : Type;
  exec : Call float Model -> World -> World;
  getMicros : World -> Z;                (* board->getMicros() *)
  getImu : World -> vec3 float -> vec3 float * vec3 float;
                                         (* what board->getImu leaves in its two arrays *)
  lostSignal : World -> bool;            (* receiver->lostSignal() *)
  throttleIsDown : World -> bool;        (* receiver->throttleIsDown() *)
  changed : World -> bool;               (* receiver->changed() *)
  arming : World -> bool;                (* receiver->arming() *)
  disarming : World -> bool;             (* receiver->disarming() *)
  getAuxState : World -> Z;              (* receiver->getAuxState(), a uint8_t *)
  getAuxState_range : forall w, 0 <= getAuxState w < 256;
  demandThrottle : World -> float;       (* receiver->demands[Receiver::DEMAND_THROTTLE] *)
  pidRoll : World -> float;              (* stab.pidRoll *)
  pidPitch : World -> float;             (* stab.pidPitch *)
  pidYaw : World -> float;               (* stab.pidYaw *)
  maxArmingAngle : World -> float        (* stab.maxArmingAngle *)
}.

(** ** The orchestrator *)

Section Orchestrator.

Variable P : Platform.

Local Abbreviation call_t := (Call (float P) (Model P)).

(** The data members of [class Hackflight].  [world] is what the
    pointers [board] and [receiver] and the members [mixer], [msp],
    [stab] and [alti] denote; [log] records the commands sent so far. *)
Record Hackflight : Type := mkHackflight {
  world : World P;
  innerTask : TimedTask.t;
  outerTask : TimedTask.t;
  angleCheckTask : TimedTask.t;
  altitudeTask : TimedTask.t;
  armed : bool;
  failsafe : bool;
  yawInitial : float P;
  auxState : Z;                        (* uint8_t *)
  eulerAngles : vec3 (float P);
  safeToArm : bool;
  log : list call_t
}.

(** *** Assignments to single members *)

Definition set_innerTask (t : TimedTask.t) (hf : Hackflight) : Hackflight :=
  mkHackflight (world hf) t (outerTask hf) (angleCheckTask hf)
    (altitudeTask hf) (armed hf) (failsafe hf) (yawInitial hf) (auxState hf)
    (eulerAngles hf) (safeToArm hf) (log hf).

Definition set_outerTask (t : TimedTask.t) (hf : Hackflight) : Hackflight :=
  mkHackflight (world hf) (innerTask hf) t (angleCheckTask hf)
    (altitudeTask hf) (armed hf) (failsafe hf) (yawInitial hf) (auxState hf)
    (eulerAngles hf) (safeToArm hf) (log hf).

Definition set_angleCheckTask (t : TimedTask.t) (hf : Hackflight) : Hackflight :=
  mkHackflight (world hf) (innerTask hf) (outerTask hf) t
    (altitudeTask hf) (armed hf) (failsafe hf) (yawInitial hf) (auxState hf)
    (eulerAngles hf) (safeToArm hf) (log hf).

Definition set_altitudeTask (t : TimedTask.t) (hf : Hackflight) : Hackflight :=
  mkHackflight (world hf) (innerTask hf) (outerTask hf) (angleCheckTask hf)
    t (armed hf) (failsafe hf) (yawInitial hf) (auxState hf)
    (eulerAngles hf) (safeToArm hf) (log hf).

Definition set_armed (b : bool) (hf : Hackflight) : Hackflight :=
  mkHackflight (world hf) (innerTask hf) (outerTask hf) (angleCheckTask hf)
    (altitudeTask hf) b (failsafe hf) (yawInitial hf) (auxState hf)
    (eulerAngles hf) (safeToArm hf) (log hf).

Definition set_failsafe (b : bool) (hf : Hackflight) : Hackflight :=
  mkHackflight (world hf) (innerTask hf) (outerTask hf) (angleCheckTask hf)
    (altitudeTask hf) (armed hf) b (yawInitial hf) (auxState hf)
    (eulerAngles hf) (safeToArm hf) (log hf).

Definition set_yawInitial (y : float P) (hf : Hackflight) : Hackflight :=
  mkHackflight (world hf) (innerTask hf) (outerTask hf) (angleCheckTask hf)
    (altitudeTask hf) (armed hf) (failsafe hf) y (auxState hf)
    (eulerAngles hf) (safeToArm hf) (log hf).

Definition set_auxState (a : Z) (hf : Hackflight) : Hackflight :=
  mkHackflight (world hf) (innerTask hf) (outerTask hf) (angleCheckTask hf)
    (altitudeTask hf) (armed hf) (failsafe hf) (yawInitial hf) a
    (eulerAngles hf) (safeToArm hf) (log hf).

Definition set_eulerAngles (e : vec3 (float P)) (hf : Hackflight) : Hackflight :=
  mkHackflight (world hf) (innerTask hf) (outerTask hf) (angleCheckTask hf)
    (altitudeTask hf) (armed hf) (failsafe hf) (yawInitial hf) (auxState hf)
    e (safeToArm hf) (log hf).

Definition set_safeToArm (b : bool) (hf : Hackflight) : Hackflight :=
  mkHackflight (world hf) (innerTask hf) (outerTask hf) (angleCheckTask hf)
    (altitudeTask hf) (armed hf) (failsafe hf) (yawInitial hf) (auxState hf)
    (eulerAngles hf) b (log hf).

(** The outside changes what the collaborators will report. *)
Definition set_world (w : World P) (hf : Hackflight) : Hackflight :=
  mkHackflight w (innerTask hf) (outerTask hf) (angleCheckTask hf)
    (altitudeTask hf) (armed hf) (failsafe hf) (yawInitial hf) (auxState hf)
    (eulerAngles hf) (safeToArm hf) (log hf).

(** A command to a collaborator: the world moves, the call is logged. *)
Definition call (c : call_t) (hf : Hackflight) : Hackflight :=
  mkHackflight (exec P c (world hf)) (innerTask hf) (outerTask hf)
    (angleCheckTask hf) (altitudeTask hf) (armed hf) (failsafe hf)
    (yawInitial hf) (auxState hf) (eulerAngles hf) (safeToArm hf)
    (log hf ++ [c]).

(** The calls logged between an earlier state and a later one. *)
Definition calls_since (hf hf' : Hackflight) : list call_t :=
  skipn (length (log hf)) (log hf').

(** *** Constants (private members of the class) *)

Definition imuLoopMicro : Z := 3500.
Definition rcLoopMilli : Z := 10.
Definition altHoldLoopMilli : Z := 25.
Definition angleCheckMilli : Z := 500.
Definition delayMilli : Z := 100.
Definition ledFlashMilli : Z := 1000.
Definition ledFlashCount : Z := 20.

(** *** [Hackflight::flashLed] (lines 261-272) *)

(** The body of the [for] loop, run [n] more times. *)
Fixpoint flashLed_loop (n : nat) (pauseMilli : Z) (hf : Hackflight) : Hackflight :=
  match n with
  | O => hf
  | S n' =>
      let hf := call (BoardLedSet true) hf in
      let hf := call (BoardDelayMilliseconds pauseMilli) hf in
      let hf := call (BoardLedSet false) hf in
      let hf := call (BoardDelayMilliseconds pauseMilli) hf in
      flashLed_loop n' pauseMilli hf
  end.

Definition flashLed (hf : Hackflight) : Hackflight :=
  let pauseMilli := to_u32 (ledFlashMilli / ledFlashCount) in
  let hf := call (BoardLedSet false) hf in
  let hf := flashLed_loop (Z.to_nat ledFlashCount) pauseMilli hf in
  call (BoardLedSet false) hf.

(** *** [Hackflight::init] (lines 85-121) *)

(** The pointers [_board] and [_receiver] are the world the state
    already carries; [_model] is passed on to [stab] and [alti]. *)
Definition init (_model : Model P) (hf : Hackflight) : Hackflight :=
  let hf := call BoardInit hf in
  let hf := flashLed hf in
  let hf := call (BoardDelayMilliseconds delayMilli) hf in
  let hf := set_innerTask (TimedTask.init imuLoopMicro) hf in
  let hf := set_outerTask (TimedTask.init (to_u32 (rcLoopMilli * 1000))) hf in
  let hf := set_angleCheckTask (TimedTask.init (to_u32 (angleCheckMilli * 1000))) hf in
  let hf := call ReceiverInit hf in
  let hf := call (StabInit _model) hf in
  let hf := call MixerInit hf in
  let hf := call MspInit hf in
  let hf := set_altitudeTask (TimedTask.init (to_u32 (altHoldLoopMilli * 1000))) hf in
  let hf := call (AltiInit _model) hf in
  let hf := set_armed false hf in
  let hf := set_safeToArm false hf in
  set_failsafe false hf.

(** *** [Hackflight::outer] (lines 158-208) *)

(** Lines 160-166: refresh the receiver, reset the integrator when the
    throttle is down. *)
Definition outer_refresh (hf : Hackflight) : Hackflight :=
  let hf := call ReceiverUpdate hf in
  if throttleIsDown P (world hf)
  then call StabResetIntegral hf
  else hf.

(** Lines 184-197: the arming block, reached when the receiver reports
    a change and [armed] is false. *)
Definition outer_arming (hf : Hackflight) : Hackflight :=
  if arming P (world hf) then
    if negb (failsafe hf) && safeToArm hf then
      let hf := set_auxState (to_u8 (getAuxState P (world hf))) hf in
      if auxState hf =? 0 then            (* aux switch must be in zero position *)
        if negb (armed hf) then
          let hf := set_yawInitial (AXIS_YAW (eulerAngles hf)) hf in
          set_armed true hf
        else hf
      else hf
    else hf
  else hf.

(** Lines 168-201: arming and disarming, checked when the receiver
    reports a change. *)
Definition outer_switch (hf : Hackflight) : Hackflight :=
  if changed P (world hf) then
    if armed hf then
      if disarming P (world hf) then
        if armed hf then set_armed false hf else hf
      else hf
    else outer_arming hf
  else hf.

(** Lines 203-207: aux switch changes. *)
Definition outer_aux (hf : Hackflight) : Hackflight :=
  if negb (getAuxState P (world hf) =? auxState hf) then
    let hf := set_auxState (to_u8 (getAuxState P (world hf))) hf in
    call (AltiHandleAuxSwitch (auxState hf) (demandThrottle P (world hf))) hf
  else hf.

(** The state in which line 204 is reached. *)
Definition outer_before_aux (hf : Hackflight) : Hackflight :=
  outer_switch (outer_refresh hf).

Definition outer (hf : Hackflight) : Hackflight :=
  outer_aux (outer_before_aux hf).

(** *** [Hackflight::inner] (lines 210-254) *)

(** Lines 212-235: everything up to and including [stab.update]. *)
Definition inner_pipeline (hf : Hackflight) : Hackflight :=
  let hf := call (ReceiverComputeExpo
                    (fsub P (AXIS_YAW (eulerAngles hf)) (yawInitial hf))) hf in
  let '(angles, gyroRadiansPerSecond) := getImu P (world hf) (eulerAngles hf) in
  let hf := set_eulerAngles angles (call BoardGetImu hf) in
  let hf :=
    if flt P (AXIS_YAW (eulerAngles hf)) (fzero P)
    then set_eulerAngles
           (set_yaw (fadd_2pi P (AXIS_YAW (eulerAngles hf))) (eulerAngles hf)) hf
    else hf in
  let hf := call (BoardLedSet (armed hf)) hf in
  let hf := call (AltiFuseWithImu (eulerAngles hf) (armed hf)) hf in
  let hf := call AltiModifyDemand hf in
  call (StabUpdate (eulerAngles hf) gyroRadiansPerSecond) hf.

(** Lines 237-250: the command that goes to the mixer. *)
Definition inner_mixer_call (hf : Hackflight) : call_t :=
  if negb (armed hf) then MixerRunDisarmed
  else if negb (failsafe hf) && negb (throttleIsDown P (world hf)) then
    MixerRunArmed (demandThrottle P (world hf)) (pidRoll P (world hf))
                  (pidPitch P (world hf)) (pidYaw P (world hf))
  else MixerCutMotors.

Definition inner (hf : Hackflight) : Hackflight :=
  let hf := inner_pipeline hf in
  let hf := call (inner_mixer_call hf) hf in
  call (MspUpdate (eulerAngles hf) (armed hf)) hf.

(** *** [Hackflight::checkAngle] (lines 256-259) *)

Definition checkAngle (hf : Hackflight) : Hackflight :=
  set_safeToArm
    (flt P (fabs P (AXIS_ROLL (eulerAngles hf))) (maxArmingAngle P (world hf))
     && flt P (fabs P (AXIS_PITCH (eulerAngles hf))) (maxArmingAngle P (world hf)))
    hf.

(** *** [Hackflight::update] (lines 123-156) *)

(** Line 126. *)
Definition currentTime (hf : Hackflight) : Z := to_u32 (getMicros P (world hf)).

(** Lines 128-136: the outer loop, or else the altitude-PID task. *)
Definition update_slow (now : Z) (hf : Hackflight) : Hackflight :=
  let '(fired, task) := TimedTask.checkAndUpdate (outerTask hf) now in
  let hf := set_outerTask task hf in
  if fired then outer hf
  else
    let '(fired, task) := TimedTask.checkAndUpdate (altitudeTask hf) now in
    let hf := set_altitudeTask task hf in
    if fired then call (AltiComputePid (armed hf)) hf else hf.

(** Lines 138-141: the inner loop. *)
Definition update_fast (now : Z) (hf : Hackflight) : Hackflight :=
  let '(fired, task) := TimedTask.checkAndUpdate (innerTask hf) now in
  let hf := set_innerTask task hf in
  if fired then inner hf else hf.

(** Lines 143-146: the arming-angle check. *)
Definition update_angle (now : Z) (hf : Hackflight) : Hackflight :=
  if TimedTask.ready (angleCheckTask hf) now then checkAngle hf else hf.

(** Lines 148-154: the failsafe. *)
Definition update_failsafe (hf : Hackflight) : Hackflight :=
  if armed hf && lostSignal P (world hf) then
    let hf := call MixerCutMotors hf in
    let hf := set_armed false hf in
    let hf := set_failsafe true hf in
    call (BoardLedSet false) hf
  else hf.

(** The state in which line 149 is reached: all task handlers of this
    call have run. *)
Definition update_tasks (hf : Hackflight) : Hackflight :=
  let now := currentTime hf in
  update_angle now (update_fast now (update_slow now hf)).

Definition update (hf : Hackflight) : Hackflight :=
  update_failsafe (update_tasks hf).

(** Repeated calls of [update] from the external loop.  Between two
    calls the outside (clock, radio link, sensors) may change the world
    in any way: one transformer per tick, applied before the tick. *)
Fixpoint run (env : list (World P -> World P)) (hf : Hackflight) : Hackflight :=
  match env with
  | [] => hf
  | e :: rest => run rest (update (set_world (e (world hf)) hf))
  end.

End Orchestrator.

Arguments mkHackflight {P} _ _ _ _ _ _ _ _ _ _ _ _.
Arguments world {P} _.
Arguments innerTask {P} _.
Arguments outerTask {P} _.
Arguments angleCheckTask {P} _.
Arguments altitudeTask {P} _.
Arguments armed {P} _.
Arguments failsafe {P} _.
Arguments yawInitial {P} _.
Arguments auxState {P} _.
Arguments eulerAngles {P} _.
Arguments safeToArm {P} _.
Arguments log {P} _.
Arguments set_innerTask {P} _ _.
Arguments set_outerTask {P} _ _.
Arguments set_angleCheckTask {P} _ _.
Arguments set_altitudeTask {P} _ _.
Arguments set_armed {P} _ _.
Arguments set_failsafe {P} _ _.
Arguments set_yawInitial {P} _ _.
Arguments set_auxState {P} _ _.
Arguments set_eulerAngles {P} _ _.
Arguments set_safeToArm {P} _ _.
Arguments set_world {P} _ _.
Arguments call {P} _ _.
Arguments calls_since {P} _ _.
Arguments flashLed_loop {P} _ _ _.
Arguments flashLed {P} _.
Arguments init {P} _ _.
Arguments outer_refresh {P} _.
Arguments outer_arming {P} _.
Arguments outer_switch {P} _.
Arguments outer_aux {P} _.
Arguments outer_before_aux {P} _.
Arguments outer {P} _.
Arguments inner_pipeline {P} _.
Arguments inner_mixer_call {P} _.
Arguments inner {P} _.
Arguments checkAngle {P} _.
Arguments currentTime {P} _.
Arguments update_slow {P} _ _.
Arguments update_fast {P} _ _.
Arguments update_angle {P} _ _.
Arguments update_failsafe {P} _.
Arguments update_tasks {P} _.
Arguments update {P} _.
Arguments run {P} _ _.

(** ** The accelerometer accumulator of [imu.hpp] *)

Module IMU.

(** A C array of three integers, read and written by index.  The source
    only uses the indices 0, 1 and 2; any other index is outside the
    array and is left without effect here. *)
Definition array3 : Type := (Z * Z * Z)%type.

Definition get3 (a : array3) (i : Z) : Z :=
  let '(x, y, z) := a in
  if i =? 0 then x else if i =? 1 then y else z.

Definition set3 (a : array3) (i : Z) (v : Z) : array3 :=
  let '(x, y, z) := a in
  if i =? 0 then (v, y, z)
  else if i =? 1 then (x, v, z)
  else if i =? 2 then (x, y, v)
  else a.

(** The data members of [class IMU] ([board] is a pointer that
    [computeAccelZ] does not use). *)
Record t : Type := mk {
  accelSum : array3;        (* int32_t[3] *)
  accelSumCount : Z;        (* int32_t *)
  accelTimeSum : Z;         (* uint32_t *)
  eulerAngles : array3;     (* int16_t[3] *)
  gyroRaw : array3          (* int16_t[3] *)
}.

Definition set_accelSum (a : array3) (imu : t) : t :=
  mk a (accelSumCount imu) (accelTimeSum imu) (eulerAngles imu) (gyroRaw imu).
Definition set_accelSumCount (n : Z) (imu : t) : t :=
  mk (accelSum imu) n (accelTimeSum imu) (eulerAngles imu) (gyroRaw imu).
Definition set_accelTimeSum (n : Z) (imu : t) : t :=
  mk (accelSum imu) (accelSumCount imu) n (eulerAngles imu) (gyroRaw imu).

(** [IMU::computeAccelZ] (lines 107-118): the returned [float] and the
    object afterwards. *)
Definition computeAccelZ (P : Platform) (imu : t) : float P * t :=
  let accelZ := fzero P in
  let imu := set_accelSum (set3 (accelSum imu) 0 0) imu in
  let imu := set_accelSum (set3 (accelSum imu) 1 0) imu in
  let imu := set_accelSum (set3 (accelSum imu) 2 0) imu in
  let imu := set_accelSumCount 0 imu in
  let imu := set_accelTimeSum 0 imu in
  (accelZ, imu).

(** [IMU::init] (lines 63-72).  [imuInit] is what [board->imuInit()] does
    to the board that [_board] points to; the loop runs for k = 0, 1, 2
    and its body writes [accelSum[0]] each time. *)
Definition init {B : Type} (imuInit : B -> B) (_board : B) (imu : t) : B * t :=
  let board := imuInit _board in
  let imu :=
    fold_left (fun imu (k : Z) => set_accelSum (set3 (accelSum imu) 0 0) imu)
      [0; 1; 2] imu in
  let imu := set_accelSumCount 0 imu in
  let imu := set_accelTimeSum 0 imu in
  (board, imu).

End IMU.

(** ** A simulation double for the collaborators *)

Module Sim.

(** What the simulated board, receiver and stabilizer report.  Angles
    and demands are integers (thousandths of a radian, thousandths of
    full scale). *)
Record world : Type := mkWorld {
  micros : Z;
  signal_lost : bool;
  throttle_down : bool;
  sticks_changed : bool;
  arm_request : bool;
  disarm_request : bool;
  aux : Z;
  throttle : Z;
  attitude : vec3 Z;
  rates : vec3 Z;
  tilt_limit : Z
}.

Lemma aux_range (w : world) : 0 <= to_u8 (aux w) < 256.
Proof. unfold to_u8. apply Z.mod_pos_bound. reflexivity. Qed.

(** Commands leave the simulated readings as they are. *)
Definition platform : Platform := {|
  float := Z;
  fsub := Z.sub;
  flt := Z.ltb;
  fzero := 0;
  fabs := Z.abs;
  fadd_2pi := fun a => a + 6283;
  Model := unit;
  World := world;
  exec := fun _ w => w;
  getMicros := micros;
  getImu := fun w _ => (attitude w, rates w);
  lostSignal := signal_lost;
  throttleIsDown := throttle_down;
  changed := sticks_changed;
  arming := arm_request;
  disarming := disarm_request;
  getAuxState := fun w => to_u8 (aux w);
  getAuxState_range := aux_range;
  demandThrottle := throttle;
  pidRoll := fun _ => 0;
  pidPitch := fun _ => 0;
  pidYaw := fun _ => 0;
  maxArmingAngle := tilt_limit
|}.

Definition level : vec3 Z := mkVec3 0 0 0.

(** On the ground, level, sticks at rest, link up, clock at [now]. *)
Definition quiet (now : Z) : world :=
  mkWorld now false true false false false 0 0 level level 436.

(** The object as a zero-filled static instance, in a given world. *)
Definition fresh (w : world) : Hackflight platform :=
  mkHackflight (P := platform) w
    (TimedTask.mk 0 0) (TimedTask.mk 0 0) (TimedTask.mk 0 0) (TimedTask.mk 0 0)
    false false 0 0 level false [].

(** After [init]: tasks configured, flags cleared. *)
Definition booted (w : world) : Hackflight platform :=
  init (P := platform) tt (fresh w).

(** **** Scenarios *)

(** Armed and flying at t = 20 ms when the radio link drops. *)
Definition link_lost : world :=
  mkWorld 20000 true false false false false 0 500 level level 436.

Definition flying_link_lost : Hackflight platform :=
  set_armed true (booted link_lost).

(** The link is back one tick later. *)
Definition link_back (w : world) : world :=
  mkWorld (micros w + 1000) false (throttle_down w) (sticks_changed w)
    (arm_request w) (disarm_request w) (aux w) (throttle w) (attitude w)
    (rates w) (tilt_limit w).

(** On the ground and level, sticks moved to the arming position, aux
    switch at [a]. *)
Definition arm_request_with_aux (a : Z) : world :=
  mkWorld 20000 false true true true false a 0 level level 436.

(** Disarmed, checked level, aux switch last seen at zero. *)
Definition ready_to_arm (w : world) : Hackflight platform :=
  set_safeToArm true (booted w).

(** Booted on the ground; the first tick comes at t = 20 ms, the second
    at t = 25 ms. *)
Definition first_tick : Hackflight platform := booted (quiet 20000).

Definition second_tick : Hackflight platform :=
  set_world (P := platform) (quiet 25000) (update first_tick).

(** Disarmed on the bench at t = 10 ms, tilted, aux switch at 1. *)
Definition bench_aux_1 : world :=
  mkWorld 10000 false true false false false 1 0
    (mkVec3 10 (-20) 1500) level 436.

(** In the air at t = 20 ms, link up, throttle at half. *)
Definition flying_world : world :=
  mkWorld 20000 false false false false false 0 500 level level 436.

Definition flying : Hackflight platform :=
  set_armed true (booted flying_world).

(** Landed at t = 20 ms, sticks moved to the disarming position. *)
Definition disarm_request_world : world :=
  mkWorld 20000 false true true false true 0 0 level level 436.

Definition landed_armed : Hackflight platform :=
  set_armed true (booted disarm_request_world).

(** One microsecond after the first tick: nothing is due. *)
Definition nothing_due : Hackflight platform :=
  set_world (P := platform) (quiet 20001) (update first_tick).

End Sim.

(** * Properties *)

(** ** Machine integers *)

Lemma to_u8_small (z : Z) : 0 <= z < 256 -> to_u8 z = z.
Proof. intros H. unfold to_u8. apply Z.mod_small. exact H. Qed.

(** ** The periodic-task gate *)

Lemma checkAndUpdate_result (tk : TimedTask.t) (now : Z) :
  snd (TimedTask.checkAndUpdate tk now) =
  if fst (TimedTask.checkAndUpdate tk now)
  then TimedTask.mk (TimedTask.period tk) now
  else tk.
Proof.
  unfold TimedTask.checkAndUpdate.
  destruct (TimedTask.elapsed tk now); reflexivity.
Qed.

(** ** The accelerometer accumulator *)

(** C10: [IMU::computeAccelZ] returns the float zero and leaves the three
    [accelSum] cells, [accelSumCount] and [accelTimeSum] at zero, whatever
    they held before; the two public arrays are not touched. *)
Theorem computeAccelZ_zero_and_reset (P : Platform) (imu : IMU.t) :
  fst (IMU.computeAccelZ P imu) = fzero P /\
  IMU.get3 (IMU.accelSum (snd (IMU.computeAccelZ P imu))) 0 = 0 /\
  IMU.get3 (IMU.accelSum (snd (IMU.computeAccelZ P imu))) 1 = 0 /\
  IMU.get3 (IMU.accelSum (snd (IMU.computeAccelZ P imu))) 2 = 0 /\
  IMU.accelSumCount (snd (IMU.computeAccelZ P imu)) = 0 /\
  IMU.accelTimeSum (snd (IMU.computeAccelZ P imu)) = 0 /\
  IMU.eulerAngles (snd (IMU.computeAccelZ P imu)) = IMU.eulerAngles imu /\
  IMU.gyroRaw (snd (IMU.computeAccelZ P imu)) = IMU.gyroRaw imu.
Proof.
  destruct imu as [[[x y] z] n s e g].
  repeat split.
Qed.

(** ** The orchestrator *)

Section OrchestratorFacts.

Variable P : Platform.
Implicit Types hf s : Hackflight P.
Implicit Types evs : list (Call (float P) (Model P)).

(** *** Call logs *)

Lemma calls_since_app hf hf' evs :
  log hf' = log hf ++ evs -> calls_since hf hf' = evs.
Proof.
  intros H. unfold calls_since. rewrite H.
  rewrite skipn_app, Nat.sub_diag, skipn_all. reflexivity.
Qed.

Lemma count_app {A : Type} (p : A -> bool) (l1 l2 : list A) :
  count p (l1 ++ l2) = (count p l1 + count p l2)%nat.
Proof. unfold count. rewrite filter_app, length_app. reflexivity. Qed.

(** [hf'] was reached from [hf] by sending exactly the calls [evs]. *)
Definition sent hf hf' evs : Prop := log hf' = log hf ++ evs.

Lemma sent_nil hf : sent hf hf [].
Proof. unfold sent. symmetry. apply app_nil_r. Qed.

Lemma sent_call c hf : sent hf (call c hf) [c].
Proof. reflexivity. Qed.

Lemma sent_trans hf1 hf2 hf3 evs1 evs2 :
  sent hf1 hf2 evs1 -> sent hf2 hf3 evs2 -> sent hf1 hf3 (evs1 ++ evs2).
Proof.
  unfold sent. intros H1 H2. rewrite H2, H1. symmetry. apply app_assoc.
Qed.

Lemma sent_calls_since hf hf' evs : sent hf hf' evs -> calls_since hf hf' = evs.
Proof. apply calls_since_app. Qed.

(** *** [flashLed] and [init] *)

(** The members that no command to a collaborator can touch. *)
Definition members hf :=
  (armed hf, failsafe hf, safeToArm hf, auxState hf, yawInitial hf,
   eulerAngles hf).

Lemma members_eq hf hf' :
  members hf = members hf' ->
  armed hf = armed hf' /\ failsafe hf = failsafe hf' /\
  safeToArm hf = safeToArm hf' /\ auxState hf = auxState hf' /\
  yawInitial hf = yawInitial hf' /\ eulerAngles hf = eulerAngles hf'.
Proof.
  unfold members. intros H. inversion H. repeat split; assumption.
Qed.

Lemma members_call c hf : members (call c hf) = members hf.
Proof. reflexivity. Qed.

Lemma flashLed_loop_members n pause hf :
  members (flashLed_loop n pause hf) = members hf.
Proof.
  revert hf. induction n as [|n IH]; intros hf.
  - reflexivity.
  - cbn [flashLed_loop]. rewrite IH. rewrite !members_call. reflexivity.
Qed.

(** Reduction of member reads through assignments and calls only. *)
Ltac members_simpl :=
  cbn [world innerTask outerTask angleCheckTask altitudeTask armed failsafe
       yawInitial auxState eulerAngles safeToArm log
       set_innerTask set_outerTask set_angleCheckTask set_altitudeTask
       set_armed set_failsafe set_yawInitial set_auxState set_eulerAngles
       set_safeToArm call members] in *.

Lemma flashLed_members hf : members (flashLed hf) = members hf.
Proof.
  unfold flashLed.
  rewrite members_call, flashLed_loop_members, members_call. reflexivity.
Qed.

Lemma init_members (m : Model P) hf :
  armed (init m hf) = false /\
  failsafe (init m hf) = false /\
  safeToArm (init m hf) = false /\
  auxState (init m hf) = auxState hf /\
  yawInitial (init m hf) = yawInitial hf /\
  eulerAngles (init m hf) = eulerAngles hf.
Proof.
  destruct (members_eq _ _ (flashLed_members (call BoardInit hf)))
    as (_ & _ & _ & Haux & Hyaw & Heul).
  unfold init.
  set (s := flashLed (call BoardInit hf)) in *. clearbody s.
  members_simpl.
  repeat split; assumption.
Qed.



(** *** [outer] *)

Lemma outer_refresh_members hf : members (outer_refresh hf) = members hf.
Proof.
  unfold outer_refresh.
  destruct (throttleIsDown P (world (call ReceiverUpdate hf))); reflexivity.
Qed.

Lemma outer_refresh_sent hf :
  sent hf (outer_refresh hf)
    (ReceiverUpdate ::
     if throttleIsDown P (exec P ReceiverUpdate (world hf))
     then [StabResetIntegral] else []).
Proof.
  unfold sent, outer_refresh. members_simpl.
  destruct (throttleIsDown P (exec P ReceiverUpdate (world hf)));
    members_simpl; rewrite <- ?app_assoc; reflexivity.
Qed.

Lemma outer_refresh_tasks hf :
  innerTask (outer_refresh hf) = innerTask hf /\
  outerTask (outer_refresh hf) = outerTask hf /\
  angleCheckTask (outer_refresh hf) = angleCheckTask hf /\
  altitudeTask (outer_refresh hf) = altitudeTask hf.
Proof.
  unfold outer_refresh.
  destruct (throttleIsDown P (world (call ReceiverUpdate hf)));
    repeat split.
Qed.

(** The arming block on its own, from a disarmed state. *)
Lemma outer_arming_armed s :
  armed s = false ->
  (armed (outer_arming s) = true <->
     arming P (world s) = true /\ failsafe s = false /\
     safeToArm s = true /\ getAuxState P (world s) = 0).
Proof.
  intros Hd. unfold outer_arming.
  destruct (arming P (world s)); [|rewrite Hd; intuition congruence].
  destruct (failsafe s); cbn [negb andb];
    [rewrite Hd; intuition congruence|].
  destruct (safeToArm s); [|rewrite Hd; intuition congruence].
  members_simpl. rewrite (to_u8_small _ (getAuxState_range P (world s))).
  destruct (Z.eqb_spec (getAuxState P (world s)) 0) as [E|E].
  - rewrite Hd. cbn [negb]. members_simpl. intuition congruence.
  - members_simpl. rewrite Hd. intuition congruence.
Qed.

Lemma outer_arming_yawInitial s :
  yawInitial (outer_arming s) =
  if armed (outer_arming s) && negb (armed s)
  then AXIS_YAW (eulerAngles s) else yawInitial s.
Proof.
  unfold outer_arming.
  destruct (arming P (world s));
    [|destruct (armed s); reflexivity].
  destruct (negb (failsafe s) && safeToArm s);
    [|destruct (armed s); reflexivity].
  members_simpl.
  destruct (to_u8 (getAuxState P (world s)) =? 0);
    destruct (armed s) eqn:Ha; cbn [negb]; members_simpl;
    rewrite ?Ha; reflexivity.
Qed.

Lemma outer_arming_world s : world (outer_arming s) = world s.
Proof.
  unfold outer_arming.
  destruct (arming P (world s)); [|reflexivity].
  destruct (negb (failsafe s) && safeToArm s); [|reflexivity].
  members_simpl.
  destruct (to_u8 (getAuxState P (world s)) =? 0); [|reflexivity].
  destruct (armed s); reflexivity.
Qed.

Lemma outer_arming_log s : log (outer_arming s) = log s.
Proof.
  unfold outer_arming.
  destruct (arming P (world s)); [|reflexivity].
  destruct (negb (failsafe s) && safeToArm s); [|reflexivity].
  members_simpl.
  destruct (to_u8 (getAuxState P (world s)) =? 0); [|reflexivity].
  destruct (armed s); reflexivity.
Qed.

Lemma outer_arming_failsafe s : failsafe (outer_arming s) = failsafe s.
Proof.
  unfold outer_arming.
  destruct (arming P (world s)); [|reflexivity].
  destruct (negb (failsafe s) && safeToArm s); [|reflexivity].
  members_simpl.
  destruct (to_u8 (getAuxState P (world s)) =? 0); [|reflexivity].
  destruct (armed s); reflexivity.
Qed.

Lemma outer_arming_tasks s :
  innerTask (outer_arming s) = innerTask s /\
  outerTask (outer_arming s) = outerTask s /\
  angleCheckTask (outer_arming s) = angleCheckTask s /\
  altitudeTask (outer_arming s) = altitudeTask s.
Proof.
  unfold outer_arming.
  destruct (arming P (world s)); [|repeat split].
  destruct (negb (failsafe s) && safeToArm s); [|repeat split].
  members_simpl.
  destruct (to_u8 (getAuxState P (world s)) =? 0); [|repeat split].
  destruct (armed s); repeat split.
Qed.

Lemma outer_switch_world s : world (outer_switch s) = world s.
Proof.
  unfold outer_switch.
  destruct (changed P (world s)); [|reflexivity].
  destruct (armed s) eqn:Ha.
  - destruct (disarming P (world s)); reflexivity.
  - apply outer_arming_world.
Qed.

Lemma outer_switch_log s : log (outer_switch s) = log s.
Proof.
  unfold outer_switch.
  destruct (changed P (world s)); [|reflexivity].
  destruct (armed s) eqn:Ha.
  - destruct (disarming P (world s)); reflexivity.
  - apply outer_arming_log.
Qed.

Lemma outer_switch_failsafe s : failsafe (outer_switch s) = failsafe s.
Proof.
  unfold outer_switch.
  destruct (changed P (world s)); [|reflexivity].
  destruct (armed s) eqn:Ha.
  - destruct (disarming P (world s)); reflexivity.
  - apply outer_arming_failsafe.
Qed.

Lemma outer_switch_tasks s :
  innerTask (outer_switch s) = innerTask s /\
  outerTask (outer_switch s) = outerTask s /\
  angleCheckTask (outer_switch s) = angleCheckTask s /\
  altitudeTask (outer_switch s) = altitudeTask s.
Proof.
  unfold outer_switch.
  destruct (changed P (world s)); [|repeat split].
  destruct (armed s) eqn:Ha.
  - destruct (disarming P (world s)); repeat split.
  - apply outer_arming_tasks.
Qed.

Lemma outer_aux_kept s :
  armed (outer_aux s) = armed s /\ failsafe (outer_aux s) = failsafe s /\
  safeToArm (outer_aux s) = safeToArm s /\
  yawInitial (outer_aux s) = yawInitial s /\
  eulerAngles (outer_aux s) = eulerAngles s /\
  innerTask (outer_aux s) = innerTask s /\
  outerTask (outer_aux s) = outerTask s /\
  angleCheckTask (outer_aux s) = angleCheckTask s /\
  altitudeTask (outer_aux s) = altitudeTask s.
Proof.
  unfold outer_aux.
  destruct (negb (getAuxState P (world s) =? auxState s)); repeat split.
Qed.

Lemma outer_aux_sent s :
  sent s (outer_aux s)
    (if negb (getAuxState P (world s) =? auxState s)
     then [AltiHandleAuxSwitch (getAuxState P (world s))
             (demandThrottle P (world s))]
     else []).
Proof.
  unfold outer_aux.
  destruct (negb (getAuxState P (world s) =? auxState s)).
  - unfold sent. members_simpl.
    rewrite (to_u8_small _ (getAuxState_range P (world s))). reflexivity.
  - apply sent_nil.
Qed.

Lemma outer_before_aux_sent hf :
  sent hf (outer_before_aux hf)
    (ReceiverUpdate ::
     if throttleIsDown P (exec P ReceiverUpdate (world hf))
     then [StabResetIntegral] else []).
Proof.
  unfold outer_before_aux, sent. rewrite outer_switch_log.
  apply outer_refresh_sent.
Qed.

(** C2: in the slow-task handler, from a disarmed state, [armed] becomes
    true exactly when the receiver (as refreshed by the handler) reports
    a change and an arm intent, [failsafe] is false, [safeToArm] is true
    and the aux switch is at zero; when it does, [yawInitial] is the
    cached yaw, and otherwise [yawInitial] is what it was. *)
Theorem outer_arms_iff hf :
  armed hf = false ->
  (armed (outer hf) = true <->
     changed P (world (outer_refresh hf)) = true /\
     arming P (world (outer_refresh hf)) = true /\
     failsafe hf = false /\ safeToArm hf = true /\
     getAuxState P (world (outer_refresh hf)) = 0) /\
  yawInitial (outer hf) =
    (if armed (outer hf) then AXIS_YAW (eulerAngles hf) else yawInitial hf).
Proof.
  intros Hd.
  destruct (members_eq _ _ (outer_refresh_members hf))
    as (Ha & Hf & Hs & _ & Hy & He).
  unfold outer, outer_before_aux.
  set (s := outer_refresh hf) in *. clearbody s.
  rewrite Hd in Ha.
  destruct (outer_aux_kept (outer_switch s)) as (Ka & _ & _ & Ky & _).
  rewrite Ka, Ky. clear Ka Ky.
  unfold outer_switch.
  destruct (changed P (world s)).
  - rewrite Ha.
    pose proof (outer_arming_armed s Ha) as Hiff.
    pose proof (outer_arming_yawInitial s) as Hyaw.
    rewrite Ha in Hyaw. cbn [negb] in Hyaw. rewrite andb_true_r in Hyaw.
    rewrite Hyaw, <- Hf, <- Hs, <- Hy, <- He.
    split; [|reflexivity].
    rewrite Hiff. intuition congruence.
  - rewrite Ha, <- Hy. split; [intuition congruence | reflexivity].
Qed.

(** What the arming block does with a refused request: refused because
    [failsafe] is set or [safeToArm] is false, it leaves the whole object
    as it was; refused because the aux switch is not at zero, it has by
    then (line 189) stored the receiver's aux position in [auxState], and
    changes nothing else. *)
Lemma refused_arming_effects s :
  armed s = false ->
  arming P (world s) = true ->
  (failsafe s = true \/ safeToArm s = false -> outer_arming s = s) /\
  (failsafe s = false -> safeToArm s = true ->
   getAuxState P (world s) <> 0 ->
   outer_arming s = set_auxState (getAuxState P (world s)) s).
Proof.
  intros Hd Harm. unfold outer_arming. rewrite Harm. split.
  - intros [Hf | Hs].
    + rewrite Hf. reflexivity.
    + rewrite Hs, andb_false_r. reflexivity.
  - intros Hf Hs Haux. rewrite Hf, Hs. cbn [negb andb]. members_simpl.
    rewrite (to_u8_small _ (getAuxState_range P (world s))).
    destruct (Z.eqb_spec (getAuxState P (world s)) 0) as [E|E];
      [contradiction | reflexivity].
Qed.

(** C9: on a slow-tick pass, if at line 204 the receiver's aux position
    differs from [auxState], then [auxState] becomes that position and
    [alti.handleAuxSwitch] is called with it and the current throttle
    demand, once in the whole pass; if the two are equal the pass ends
    in the state it had reached, with no such call. *)
Theorem outer_aux_edge hf :
  (getAuxState P (world (outer_before_aux hf))
     <> auxState (outer_before_aux hf) ->
   auxState (outer hf) = getAuxState P (world (outer_before_aux hf)) /\
   calls_since (outer_before_aux hf) (outer hf) =
     [AltiHandleAuxSwitch
        (getAuxState P (world (outer_before_aux hf)))
        (demandThrottle P (world (outer_before_aux hf)))] /\
   count is_handleAuxSwitch (calls_since hf (outer hf)) = 1%nat) /\
  (getAuxState P (world (outer_before_aux hf))
     = auxState (outer_before_aux hf) ->
   outer hf = outer_before_aux hf /\
   count is_handleAuxSwitch (calls_since hf (outer hf)) = 0%nat).
Proof.
  pose proof (outer_before_aux_sent hf) as H1.
  unfold outer.
  set (s := outer_before_aux hf) in *. clearbody s.
  pose proof (outer_aux_sent s) as H2.
  pose proof (sent_trans _ _ _ _ _ H1 H2) as H3.
  split; intros Hne.
  - apply Z.eqb_neq in Hne. rewrite Hne in H2, H3. cbn [negb] in H2, H3.
    split; [|split].
    + unfold outer_aux. rewrite Hne. cbn [negb]. members_simpl.
      apply to_u8_small, getAuxState_range.
    + apply sent_calls_since. exact H2.
    + rewrite (sent_calls_since _ _ _ H3).
      destruct (throttleIsDown P (exec P ReceiverUpdate (world hf)));
        reflexivity.
  - apply Z.eqb_eq in Hne. rewrite Hne in H3. cbn [negb] in H3.
    split.
    + unfold outer_aux. rewrite Hne. reflexivity.
    + rewrite (sent_calls_since _ _ _ H3).
      destruct (throttleIsDown P (exec P ReceiverUpdate (world hf)));
        reflexivity.
Qed.

(** *** [inner] *)

Lemma inner_pipeline_kept hf :
  armed (inner_pipeline hf) = armed hf /\
  failsafe (inner_pipeline hf) = failsafe hf /\
  safeToArm (inner_pipeline hf) = safeToArm hf /\
  auxState (inner_pipeline hf) = auxState hf /\
  yawInitial (inner_pipeline hf) = yawInitial hf /\
  innerTask (inner_pipeline hf) = innerTask hf /\
  outerTask (inner_pipeline hf) = outerTask hf /\
  angleCheckTask (inner_pipeline hf) = angleCheckTask hf /\
  altitudeTask (inner_pipeline hf) = altitudeTask hf.
Proof.
  unfold inner_pipeline. members_simpl.
  destruct (getImu P _ _) as [angles gyro]. members_simpl.
  destruct (flt P (AXIS_YAW angles) (fzero P)); repeat split.
Qed.

Lemma inner_pipeline_sent hf :
  exists yawAngle angles gyro,
    sent hf (inner_pipeline hf)
      [ReceiverComputeExpo yawAngle; BoardGetImu; BoardLedSet (armed hf);
       AltiFuseWithImu angles (armed hf); AltiModifyDemand;
       StabUpdate angles gyro].
Proof.
  unfold inner_pipeline, sent. members_simpl.
  destruct (getImu P _ _) as [angles gyro]. members_simpl.
  destruct (flt P (AXIS_YAW angles) (fzero P)); members_simpl;
    repeat rewrite <- app_assoc; cbn [app];
    do 3 eexists; reflexivity.
Qed.

Lemma inner_kept hf :
  armed (inner hf) = armed hf /\
  failsafe (inner hf) = failsafe hf /\
  safeToArm (inner hf) = safeToArm hf /\
  auxState (inner hf) = auxState hf /\
  yawInitial (inner hf) = yawInitial hf /\
  innerTask (inner hf) = innerTask hf /\
  outerTask (inner hf) = outerTask hf /\
  angleCheckTask (inner hf) = angleCheckTask hf /\
  altitudeTask (inner hf) = altitudeTask hf.
Proof.
  pose proof (inner_pipeline_kept hf) as H.
  unfold inner. set (s := inner_pipeline hf) in *. clearbody s.
  members_simpl. exact H.
Qed.

Lemma inner_sent_since_pipeline hf :
  sent (inner_pipeline hf) (inner hf)
    [inner_mixer_call (inner_pipeline hf);
     MspUpdate (eulerAngles (inner_pipeline hf)) (armed (inner_pipeline hf))].
Proof.
  unfold inner, sent. set (s := inner_pipeline hf). clearbody s.
  members_simpl. rewrite <- app_assoc. reflexivity.
Qed.

Lemma is_mixer_call_inner_mixer_call s :
  is_mixer_call (inner_mixer_call s) = true.
Proof.
  unfold inner_mixer_call.
  destruct (negb (armed s)); [reflexivity|].
  destruct (negb (failsafe s) && negb (throttleIsDown P (world s)));
    reflexivity.
Qed.

Lemma inner_mixer_call_quiet s :
  is_receiverUpdate (inner_mixer_call s) = false /\
  is_computePid (inner_mixer_call s) = false.
Proof.
  unfold inner_mixer_call.
  destruct (negb (armed s)); [split; reflexivity|].
  destruct (negb (failsafe s) && negb (throttleIsDown P (world s)));
    split; reflexivity.
Qed.

(** The calls of one pass of [inner]: a prefix without mixer calls, the
    mixer command, the serial update. *)
Lemma inner_sent hf :
  exists pre,
    sent hf (inner hf)
      (pre ++ [inner_mixer_call (inner_pipeline hf);
               MspUpdate (eulerAngles (inner_pipeline hf)) (armed hf)]) /\
    count is_mixer_call pre = 0%nat /\
    count is_receiverUpdate pre = 0%nat /\
    count is_computePid pre = 0%nat.
Proof.
  destruct (inner_pipeline_sent hf) as (y & a & g & H1).
  pose proof (inner_sent_since_pipeline hf) as H2.
  destruct (inner_pipeline_kept hf) as (Ka & _).
  rewrite Ka in H2.
  eexists. split; [exact (sent_trans _ _ _ _ _ H1 H2)|].
  repeat split.
Qed.

(** C7: one pass of [inner] sends exactly one command to the mixer:
    [runDisarmed] when not armed; [runArmed] with the throttle demand
    and the three PID outputs when armed, not in failsafe and the
    throttle is not down; [cutMotors] when armed and in failsafe or with
    the throttle down.  The receiver and the stabilizer are read in the
    state they have at that point of the pass. *)
Theorem inner_one_mixer_dispatch hf :
  count is_mixer_call (calls_since hf (inner hf)) = 1%nat /\
  (armed hf = false ->
   In MixerRunDisarmed (calls_since hf (inner hf))) /\
  (armed hf = true -> failsafe hf = false ->
   throttleIsDown P (world (inner_pipeline hf)) = false ->
   In (MixerRunArmed (demandThrottle P (world (inner_pipeline hf)))
         (pidRoll P (world (inner_pipeline hf)))
         (pidPitch P (world (inner_pipeline hf)))
         (pidYaw P (world (inner_pipeline hf))))
      (calls_since hf (inner hf))) /\
  (armed hf = true ->
   failsafe hf = true \/ throttleIsDown P (world (inner_pipeline hf)) = true ->
   In MixerCutMotors (calls_since hf (inner hf))).
Proof.
  destruct (inner_sent hf) as (pre & Hs & Hm & _).
  destruct (inner_pipeline_kept hf) as (Ka & Kf & _).
  rewrite (sent_calls_since _ _ _ Hs).
  set (s := inner_pipeline hf) in *. clearbody s.
  split; [|split; [|split]].
  - rewrite count_app, Hm. unfold count. cbn [filter].
    rewrite is_mixer_call_inner_mixer_call. reflexivity.
  - intros Hd. apply in_or_app. right. left.
    unfold inner_mixer_call. rewrite Ka, Hd. reflexivity.
  - intros Hd Hf Ht. apply in_or_app. right. left.
    unfold inner_mixer_call. rewrite Ka, Kf, Hd, Hf, Ht. reflexivity.
  - intros Hd Hor. apply in_or_app. right. left.
    unfold inner_mixer_call. rewrite Ka, Kf, Hd. cbn [negb].
    destruct Hor as [Hf | Ht].
    + rewrite Hf. reflexivity.
    + rewrite Ht, andb_false_r. reflexivity.
Qed.

(** *** [update] *)

(** The calls of one pass of [outer]: [receiver->update()] first, then
    calls that are neither that nor [alti.computePid]. *)
Lemma outer_sent hf :
  exists evs,
    sent hf (outer hf) (ReceiverUpdate :: evs) /\
    count is_receiverUpdate evs = 0%nat /\
    count is_computePid evs = 0%nat.
Proof.
  pose proof (outer_before_aux_sent hf) as H1.
  unfold outer. set (s := outer_before_aux hf) in *. clearbody s.
  pose proof (sent_trans _ _ _ _ _ H1 (outer_aux_sent s)) as H.
  cbn [app] in H. eexists. split; [exact H|].
  destruct (throttleIsDown P (exec P ReceiverUpdate (world hf)));
    destruct (negb (getAuxState P (world s) =? auxState s));
    split; reflexivity.
Qed.

Lemma outer_failsafe hf : failsafe (outer hf) = failsafe hf.
Proof.
  destruct (members_eq _ _ (outer_refresh_members hf)) as (_ & Hf & _).
  unfold outer, outer_before_aux.
  set (s := outer_refresh hf) in *. clearbody s.
  destruct (outer_aux_kept (outer_switch s)) as (_ & Kf & _).
  rewrite Kf, outer_switch_failsafe. exact Hf.
Qed.

Lemma outer_altitudeTask hf : altitudeTask (outer hf) = altitudeTask hf.
Proof.
  destruct (outer_refresh_tasks hf) as (_ & _ & _ & H1).
  unfold outer, outer_before_aux.
  set (s := outer_refresh hf) in *. clearbody s.
  destruct (outer_aux_kept (outer_switch s))
    as (_ & _ & _ & _ & _ & _ & _ & _ & H3).
  destruct (outer_switch_tasks s) as (_ & _ & _ & H2).
  rewrite H3, H2. exact H1.
Qed.

(** What the slow step does, by the two gates. *)
Lemma update_slow_cases now hf :
  update_slow now hf =
  if fst (TimedTask.checkAndUpdate (outerTask hf) now) then
    outer (set_outerTask (snd (TimedTask.checkAndUpdate (outerTask hf) now)) hf)
  else if fst (TimedTask.checkAndUpdate (altitudeTask hf) now) then
    call (AltiComputePid (armed hf))
      (set_altitudeTask (snd (TimedTask.checkAndUpdate (altitudeTask hf) now))
         (set_outerTask (snd (TimedTask.checkAndUpdate (outerTask hf) now)) hf))
  else
    set_altitudeTask (snd (TimedTask.checkAndUpdate (altitudeTask hf) now))
      (set_outerTask (snd (TimedTask.checkAndUpdate (outerTask hf) now)) hf).
Proof.
  unfold update_slow.
  destruct (TimedTask.checkAndUpdate (outerTask hf) now) as [[|] t1];
    cbn [fst snd]; [reflexivity|].
  members_simpl.
  destruct (TimedTask.checkAndUpdate (altitudeTask hf) now) as [[|] t2];
    reflexivity.
Qed.

Lemma update_slow_failsafe now hf :
  failsafe (update_slow now hf) = failsafe hf.
Proof.
  rewrite update_slow_cases.
  destruct (fst (TimedTask.checkAndUpdate (outerTask hf) now)).
  - rewrite outer_failsafe. reflexivity.
  - destruct (fst (TimedTask.checkAndUpdate (altitudeTask hf) now));
      reflexivity.
Qed.

Lemma update_fast_cases now hf :
  update_fast now hf =
  if fst (TimedTask.checkAndUpdate (innerTask hf) now) then
    inner (set_innerTask (snd (TimedTask.checkAndUpdate (innerTask hf) now)) hf)
  else set_innerTask (snd (TimedTask.checkAndUpdate (innerTask hf) now)) hf.
Proof.
  unfold update_fast.
  destruct (TimedTask.checkAndUpdate (innerTask hf) now) as [[|] t1];
    reflexivity.
Qed.

Lemma update_fast_kept now hf :
  armed (update_fast now hf) = armed hf /\
  failsafe (update_fast now hf) = failsafe hf /\
  altitudeTask (update_fast now hf) = altitudeTask hf.
Proof.
  rewrite update_fast_cases.
  destruct (fst (TimedTask.checkAndUpdate (innerTask hf) now)).
  - destruct (inner_kept
                (set_innerTask
                   (snd (TimedTask.checkAndUpdate (innerTask hf) now)) hf))
      as (Ka & Kf & _ & _ & _ & _ & _ & _ & Kt).
    rewrite Ka, Kf, Kt. repeat split.
  - repeat split.
Qed.

(** The fast step sends neither [receiver->update()] nor
    [alti.computePid]. *)
Lemma update_fast_sent now hf :
  exists evs,
    sent hf (update_fast now hf) evs /\
    count is_receiverUpdate evs = 0%nat /\
    count is_computePid evs = 0%nat.
Proof.
  rewrite update_fast_cases.
  destruct (fst (TimedTask.checkAndUpdate (innerTask hf) now)).
  - destruct (inner_sent
                (set_innerTask
                   (snd (TimedTask.checkAndUpdate (innerTask hf) now)) hf))
      as (pre & Hs & _ & Hr & Hc).
    eexists. split; [exact Hs|].
    destruct (inner_mixer_call_quiet
                (inner_pipeline
                   (set_innerTask
                      (snd (TimedTask.checkAndUpdate (innerTask hf) now)) hf)))
      as (Qr & Qc).
    rewrite !count_app, Hr, Hc. unfold count. cbn [filter].
    rewrite Qr, Qc. split; reflexivity.
  - exists []. split; [|split; reflexivity].
    unfold sent. members_simpl. symmetry. apply app_nil_r.
Qed.

Lemma update_angle_kept now hf :
  log (update_angle now hf) = log hf /\
  armed (update_angle now hf) = armed hf /\
  failsafe (update_angle now hf) = failsafe hf /\
  altitudeTask (update_angle now hf) = altitudeTask hf.
Proof.
  unfold update_angle.
  destruct (TimedTask.ready (angleCheckTask hf) now); repeat split.
Qed.

Lemma update_failsafe_sent s :
  sent s (update_failsafe s)
    (if armed s && lostSignal P (world s)
     then [MixerCutMotors; BoardLedSet false] else []).
Proof.
  unfold update_failsafe, sent.
  destruct (armed s && lostSignal P (world s)).
  - members_simpl. rewrite <- app_assoc. reflexivity.
  - symmetry. apply app_nil_r.
Qed.

Lemma update_failsafe_kept s :
  altitudeTask (update_failsafe s) = altitudeTask s /\
  (failsafe s = true -> failsafe (update_failsafe s) = true).
Proof.
  unfold update_failsafe.
  destruct (armed s && lostSignal P (world s)); split; auto.
Qed.

(** The calls of the task handlers of one tick, by the two gates of the
    slow step. *)
Lemma update_tasks_sent hf :
  exists evs,
    sent hf (update_tasks hf) evs /\
    count is_receiverUpdate evs =
      (if fst (TimedTask.checkAndUpdate (outerTask hf) (currentTime hf))
       then 1 else 0)%nat /\
    count is_computePid evs =
      (if fst (TimedTask.checkAndUpdate (outerTask hf) (currentTime hf))
       then 0
       else if fst (TimedTask.checkAndUpdate (altitudeTask hf) (currentTime hf))
            then 1 else 0)%nat /\
    (fst (TimedTask.checkAndUpdate (outerTask hf) (currentTime hf)) = false ->
     fst (TimedTask.checkAndUpdate (altitudeTask hf) (currentTime hf)) = true ->
     In (AltiComputePid (armed hf)) evs).
Proof.
  unfold update_tasks.
  set (now := currentTime hf). clearbody now.
  assert (Hslow : exists evs,
    sent hf (update_slow now hf) evs /\
    count is_receiverUpdate evs =
      (if fst (TimedTask.checkAndUpdate (outerTask hf) now)
       then 1 else 0)%nat /\
    count is_computePid evs =
      (if fst (TimedTask.checkAndUpdate (outerTask hf) now)
       then 0
       else if fst (TimedTask.checkAndUpdate (altitudeTask hf) now)
            then 1 else 0)%nat /\
    (fst (TimedTask.checkAndUpdate (outerTask hf) now) = false ->
     fst (TimedTask.checkAndUpdate (altitudeTask hf) now) = true ->
     In (AltiComputePid (armed hf)) evs)).
  { rewrite update_slow_cases.
    destruct (fst (TimedTask.checkAndUpdate (outerTask hf) now)).
    - destruct (outer_sent
                  (set_outerTask
                     (snd (TimedTask.checkAndUpdate (outerTask hf) now)) hf))
        as (evs & Hs & Hr & Hc).
      exists (ReceiverUpdate :: evs). split; [exact Hs|].
      unfold count in *. cbn [filter is_receiverUpdate is_computePid length].
      rewrite Hr, Hc. repeat split. discriminate.
    - destruct (fst (TimedTask.checkAndUpdate (altitudeTask hf) now)).
      + exists [AltiComputePid (armed hf)].
        repeat split. intros _ _. left. reflexivity.
      + exists []. repeat split; try discriminate.
        unfold sent. members_simpl. symmetry. apply app_nil_r. }
  destruct Hslow as (e1 & S1 & R1 & C1 & I1).
  set (s1 := update_slow now hf) in *. clearbody s1.
  destruct (update_fast_sent now s1) as (e2 & S2 & R2 & C2).
  set (s2 := update_fast now s1) in *. clearbody s2.
  destruct (update_angle_kept now s2) as (L3 & _).
  exists (e1 ++ e2). split; [|split; [|split]].
  - unfold sent. rewrite L3. exact (sent_trans _ _ _ _ _ S1 S2).
  - rewrite count_app, R1, R2. apply Nat.add_0_r.
  - rewrite count_app, C1, C2. apply Nat.add_0_r.
  - intros H1 H2. apply in_or_app. left. apply I1; assumption.
Qed.

Lemma update_sent hf :
  exists evs,
    sent hf (update_tasks hf) evs /\
    sent hf (update hf)
      (evs ++ if armed (update_tasks hf) && lostSignal P (world (update_tasks hf))
              then [MixerCutMotors; BoardLedSet false] else []).
Proof.
  destruct (update_tasks_sent hf) as (evs & Hs & _).
  exists evs. split; [exact Hs|].
  unfold update.
  exact (sent_trans _ _ _ _ _ Hs (update_failsafe_sent (update_tasks hf))).
Qed.

(** C1: in every call of [update], whatever the task handlers did, if
    [armed] is true when line 149 is reached and the receiver reports a
    lost signal there, then the call ends with [mixer.cutMotors()] and
    [board->ledSet(false)] as its last two commands, with [armed] false
    and [failsafe] true. *)
Theorem update_failsafe_cuts hf :
  armed (update_tasks hf) = true ->
  lostSignal P (world (update_tasks hf)) = true ->
  update hf = update_failsafe (update_tasks hf) /\
  armed (update hf) = false /\
  failsafe (update hf) = true /\
  calls_since (update_tasks hf) (update hf)
    = [MixerCutMotors; BoardLedSet false] /\
  exists evs,
    calls_since hf (update_tasks hf) = evs /\
    calls_since hf (update hf) = evs ++ [MixerCutMotors; BoardLedSet false].
Proof.
  intros Ha Hl.
  destruct (update_sent hf) as (evs & H1 & H2).
  pose proof (update_failsafe_sent (update_tasks hf)) as H3.
  rewrite Ha, Hl in H2, H3. cbn [andb] in H2, H3.
  split; [reflexivity|].
  split; [|split; [|split]].
  - unfold update, update_failsafe. rewrite Ha, Hl. reflexivity.
  - unfold update, update_failsafe. rewrite Ha, Hl. reflexivity.
  - apply sent_calls_since. exact H3.
  - exists evs. split; apply sent_calls_since; assumption.
Qed.

Lemma update_keeps_failsafe hf :
  failsafe hf = true -> failsafe (update hf) = true.
Proof.
  intros Hf. unfold update. apply update_failsafe_kept.
  unfold update_tasks.
  destruct (update_angle_kept (currentTime hf)
              (update_fast (currentTime hf) (update_slow (currentTime hf) hf)))
    as (_ & _ & K3 & _).
  destruct (update_fast_kept (currentTime hf)
              (update_slow (currentTime hf) hf)) as (_ & K2 & _).
  rewrite K3, K2, update_slow_failsafe. exact Hf.
Qed.

Lemma run_keeps_failsafe env hf :
  failsafe hf = true -> failsafe (run env hf) = true.
Proof.
  revert hf. induction env as [|e env IH]; intros hf Hf.
  - exact Hf.
  - cbn [run]. apply IH. apply update_keeps_failsafe. exact Hf.
Qed.

(** C3: once [failsafe] is true it stays true through [outer], [inner],
    [checkAngle], one call of [update] and any number of further calls,
    whatever the receiver reports in between; [init] is what sets it
    back to false. *)
Theorem failsafe_is_sticky hf :
  failsafe hf = true ->
  failsafe (outer hf) = true /\
  failsafe (inner hf) = true /\
  failsafe (checkAngle hf) = true /\
  failsafe (update hf) = true /\
  (forall env, failsafe (run env hf) = true) /\
  (forall m, failsafe (init m hf) = false).
Proof.
  intros Hf.
  split; [rewrite outer_failsafe; exact Hf|].
  split; [destruct (inner_kept hf) as (_ & K & _); rewrite K; exact Hf|].
  split; [exact Hf|].
  split; [apply update_keeps_failsafe; exact Hf|].
  split; [intros env; apply run_keeps_failsafe; exact Hf|].
  intros m. apply init_members.
Qed.

Lemma update_altitudeTask_after_slow hf :
  altitudeTask (update hf) =
  altitudeTask (update_slow (currentTime hf) hf).
Proof.
  unfold update, update_tasks.
  set (s1 := update_slow (currentTime hf) hf).
  destruct (update_failsafe_kept
              (update_angle (currentTime hf) (update_fast (currentTime hf) s1)))
    as (K4 & _).
  destruct (update_angle_kept (currentTime hf)
              (update_fast (currentTime hf) s1)) as (_ & _ & _ & K3).
  destruct (update_fast_kept (currentTime hf) s1) as (_ & _ & K2).
  rewrite K4, K3, K2. reflexivity.
Qed.

(** C4: in one call of [update], [outer] (seen by its
    [receiver->update()]) runs exactly when the slow gate fires, and
    [alti.computePid] is called exactly when the slow gate does not fire
    and the altitude gate does, so never in the same call as [outer];
    when the slow gate fires the altitude task is not touched, and when
    only the altitude gate fires the handler gets the current [armed]
    and the altitude task restarts from the current time. *)
Theorem slow_and_altitude_exclusive hf :
  count is_receiverUpdate (calls_since hf (update hf)) =
    (if fst (TimedTask.checkAndUpdate (outerTask hf) (currentTime hf))
     then 1 else 0)%nat /\
  count is_computePid (calls_since hf (update hf)) =
    (if fst (TimedTask.checkAndUpdate (outerTask hf) (currentTime hf))
     then 0
     else if fst (TimedTask.checkAndUpdate (altitudeTask hf) (currentTime hf))
          then 1 else 0)%nat /\
  (fst (TimedTask.checkAndUpdate (outerTask hf) (currentTime hf)) = true ->
   altitudeTask (update hf) = altitudeTask hf) /\
  (fst (TimedTask.checkAndUpdate (outerTask hf) (currentTime hf)) = false ->
   fst (TimedTask.checkAndUpdate (altitudeTask hf) (currentTime hf)) = true ->
   In (AltiComputePid (armed hf)) (calls_since hf (update hf)) /\
   altitudeTask (update hf) =
     TimedTask.mk (TimedTask.period (altitudeTask hf)) (currentTime hf)).
Proof.
  destruct (update_tasks_sent hf) as (evs & Hs & Hr & Hc & Hi).
  pose proof (sent_trans _ _ _ _ _ Hs
                (update_failsafe_sent (update_tasks hf))) as H.
  fold (update hf) in H.
  rewrite (sent_calls_since _ _ _ H), update_altitudeTask_after_slow,
    update_slow_cases.
  assert (Hq : forall b : bool,
    count is_receiverUpdate
      (if b then [@MixerCutMotors (float P) (Model P); BoardLedSet false]
       else []) = 0%nat /\
    count is_computePid
      (if b then [@MixerCutMotors (float P) (Model P); BoardLedSet false]
       else []) = 0%nat)
    by (intros [|]; split; reflexivity).
  destruct (Hq (armed (update_tasks hf)
                && lostSignal P (world (update_tasks hf)))) as (Qr & Qc).
  rewrite !count_app, Qr, Qc, !Nat.add_0_r.
  split; [exact Hr|]. split; [exact Hc|]. split.
  - intros Ho. rewrite Ho, outer_altitudeTask. reflexivity.
  - intros Ho Ha. rewrite Ho, Ha. split.
    + apply in_or_app. left. apply Hi; assumption.
    + members_simpl. rewrite checkAndUpdate_result, Ha. reflexivity.
Qed.

(** *** More on [outer] *)

Lemma outer_arming_kept s :
  safeToArm (outer_arming s) = safeToArm s /\
  eulerAngles (outer_arming s) = eulerAngles s.
Proof.
  unfold outer_arming.
  destruct (arming P (world s)); [|split; reflexivity].
  destruct (negb (failsafe s) && safeToArm s); [|split; reflexivity].
  members_simpl.
  destruct (to_u8 (getAuxState P (world s)) =? 0); [|split; reflexivity].
  destruct (armed s); split; reflexivity.
Qed.

Lemma outer_switch_kept s :
  safeToArm (outer_switch s) = safeToArm s /\
  eulerAngles (outer_switch s) = eulerAngles s.
Proof.
  unfold outer_switch.
  destruct (changed P (world s)); [|split; reflexivity].
  destruct (armed s) eqn:Ha.
  - destruct (disarming P (world s)); split; reflexivity.
  - apply outer_arming_kept.
Qed.

(** The commands of one pass of [outer], in order. *)
Lemma outer_sent_exactly hf :
  sent hf (outer hf)
    (ReceiverUpdate ::
     (if throttleIsDown P (exec P ReceiverUpdate (world hf))
      then [StabResetIntegral] else []) ++
     (if negb (getAuxState P (world (outer_before_aux hf))
               =? auxState (outer_before_aux hf))
      then [AltiHandleAuxSwitch
              (getAuxState P (world (outer_before_aux hf)))
              (demandThrottle P (world (outer_before_aux hf)))]
      else [])).
Proof.
  pose proof (outer_before_aux_sent hf) as H1.
  unfold outer. set (s := outer_before_aux hf) in *. clearbody s.
  exact (sent_trans _ _ _ _ _ H1 (outer_aux_sent s)).
Qed.

Lemma outer_before_aux_world hf :
  world (outer_before_aux hf) = world (outer_refresh hf).
Proof. unfold outer_before_aux. apply outer_switch_world. Qed.

(** X1: From an armed state, [outer] disarms exactly when the refreshed
    receiver reports a change and a disarm intent; no other guard
    ([failsafe], [safeToArm], aux switch, throttle) takes part, and
    [yawInitial] stays as it was. *)
Theorem outer_disarms_iff hf :
  armed hf = true ->
  (armed (outer hf) = false <->
     changed P (world (outer_refresh hf)) = true /\
     disarming P (world (outer_refresh hf)) = true) /\
  yawInitial (outer hf) = yawInitial hf.
Proof.
  intros Hd.
  destruct (members_eq _ _ (outer_refresh_members hf))
    as (Ha & _ & _ & _ & Hy & _).
  unfold outer, outer_before_aux.
  set (s := outer_refresh hf) in *. clearbody s.
  rewrite Hd in Ha.
  destruct (outer_aux_kept (outer_switch s)) as (Ka & _ & _ & Ky & _).
  rewrite Ka, Ky. clear Ka Ky.
  unfold outer_switch.
  destruct (changed P (world s)).
  - rewrite Ha. destruct (disarming P (world s)).
    + members_simpl. split; [intuition congruence | exact Hy].
    + rewrite Ha. split; [intuition congruence | exact Hy].
  - rewrite Ha. split; [intuition congruence | exact Hy].
Qed.

(** X2: One pass of [outer] sends [receiver->update()], then
    [stab.resetIntegral()] exactly when the refreshed receiver reports
    the throttle down (armed or not), then [alti.handleAuxSwitch] exactly
    when line 204 finds the aux position changed, in this order and
    nothing else: no command of any kind goes to the mixer, the board or
    the serial link. *)
Theorem outer_calls hf :
  calls_since hf (outer hf) =
    ReceiverUpdate ::
    (if throttleIsDown P (exec P ReceiverUpdate (world hf))
     then [StabResetIntegral] else []) ++
    (if negb (getAuxState P (world (outer_before_aux hf))
              =? auxState (outer_before_aux hf))
     then [AltiHandleAuxSwitch
             (getAuxState P (world (outer_before_aux hf)))
             (demandThrottle P (world (outer_before_aux hf)))]
     else []) /\
  (forall c, In c (calls_since hf (outer hf)) ->
     c = ReceiverUpdate \/ c = StabResetIntegral \/
     c = AltiHandleAuxSwitch
           (getAuxState P (world (outer_before_aux hf)))
           (demandThrottle P (world (outer_before_aux hf)))).
Proof.
  rewrite (sent_calls_since _ _ _ (outer_sent_exactly hf)).
  split; [reflexivity|].
  set (s := outer_before_aux hf). clearbody s.
  intros c Hc.
  destruct Hc as [Hc | Hc]; [left; symmetry; exact Hc|].
  apply in_app_or in Hc. destruct Hc as [Hc | Hc].
  - destruct (throttleIsDown P (exec P ReceiverUpdate (world hf)));
      [|contradiction].
    destruct Hc as [Hc | []]. right. left. symmetry. exact Hc.
  - destruct (negb (getAuxState P (world s) =? auxState s));
      [|contradiction].
    destruct Hc as [Hc | []]. right. right. symmetry. exact Hc.
Qed.

(** X3: After every pass of [outer] the member [auxState] holds the aux
    position that the refreshed receiver reports, whichever of the two
    assignments (line 189, line 205) wrote it or neither. *)
Theorem outer_auxState_synced hf :
  auxState (outer hf) = getAuxState P (world (outer_refresh hf)).
Proof.
  rewrite <- outer_before_aux_world.
  unfold outer. set (s := outer_before_aux hf). clearbody s.
  unfold outer_aux.
  destruct (Z.eqb_spec (getAuxState P (world s)) (auxState s)) as [E|E];
    cbn [negb].
  - symmetry. exact E.
  - members_simpl. apply to_u8_small, getAuxState_range.
Qed.

(** X4: In a pass of [outer] that evaluates an arm request with [failsafe]
    clear and [safeToArm] set, [alti.handleAuxSwitch] is not called,
    whatever the aux position and the stored [auxState]: line 189 has
    already stored the position when line 204 compares. *)
Theorem outer_arm_request_hides_aux_change hf :
  armed hf = false ->
  failsafe hf = false ->
  safeToArm hf = true ->
  changed P (world (outer_refresh hf)) = true ->
  arming P (world (outer_refresh hf)) = true ->
  count is_handleAuxSwitch (calls_since hf (outer hf)) = 0%nat.
Proof.
  intros Hd Hf Hs Hc Hr.
  assert (Heq : getAuxState P (world (outer_before_aux hf))
                = auxState (outer_before_aux hf)).
  { destruct (members_eq _ _ (outer_refresh_members hf))
      as (Ka & Kf & Ks & _).
    unfold outer_before_aux.
    set (r := outer_refresh hf) in *. clearbody r.
    rewrite Hd in Ka. rewrite Hf in Kf. rewrite Hs in Ks.
    rewrite outer_switch_world.
    unfold outer_switch. rewrite Hc, Ka.
    unfold outer_arming. rewrite Hr, Kf, Ks. cbn [negb andb]. members_simpl.
    rewrite (to_u8_small _ (getAuxState_range P (world r))).
    destruct (getAuxState P (world r) =? 0); [rewrite Ka|]; reflexivity. }
  rewrite (sent_calls_since _ _ _ (outer_sent_exactly hf)).
  apply Z.eqb_eq in Heq. rewrite Heq. cbn [negb].
  destruct (throttleIsDown P (exec P ReceiverUpdate (world hf)));
    reflexivity.
Qed.

Lemma outer_kept hf :
  failsafe (outer hf) = failsafe hf /\
  safeToArm (outer hf) = safeToArm hf /\
  eulerAngles (outer hf) = eulerAngles hf /\
  innerTask (outer hf) = innerTask hf /\
  outerTask (outer hf) = outerTask hf /\
  angleCheckTask (outer hf) = angleCheckTask hf /\
  altitudeTask (outer hf) = altitudeTask hf.
Proof.
  destruct (members_eq _ _ (outer_refresh_members hf))
    as (_ & Hf & Hs & _ & _ & He).
  destruct (outer_refresh_tasks hf) as (T1 & T2 & T3 & T4).
  unfold outer, outer_before_aux.
  set (r := outer_refresh hf) in *. clearbody r.
  destruct (outer_aux_kept (outer_switch r))
    as (_ & Kf & Ks & _ & Ke & K1 & K2 & K3 & K4).
  destruct (outer_switch_tasks r) as (S1 & S2 & S3 & S4).
  destruct (outer_switch_kept r) as (Ss & Se).
  rewrite Kf, Ks, Ke, K1, K2, K3, K4, outer_switch_failsafe,
    Ss, Se, S1, S2, S3, S4.
  repeat split; assumption.
Qed.

(** X5: [outer] leaves [failsafe], [safeToArm], the cached orientation and
    the four task gates as they were: it can only change [armed],
    [yawInitial] and [auxState]. *)
Theorem outer_frame hf :
  failsafe (outer hf) = failsafe hf /\
  safeToArm (outer hf) = safeToArm hf /\
  eulerAngles (outer hf) = eulerAngles hf /\
  innerTask (outer hf) = innerTask hf /\
  outerTask (outer hf) = outerTask hf /\
  angleCheckTask (outer hf) = angleCheckTask hf /\
  altitudeTask (outer hf) = altitudeTask hf.
Proof. exact (outer_kept hf). Qed.

(** *** More on [inner] *)

(** The commands of [inner] up to [stab.update], with their arguments. *)
Lemma inner_pipeline_sent_exactly hf :
  sent hf (inner_pipeline hf)
    [ReceiverComputeExpo (fsub P (AXIS_YAW (eulerAngles hf)) (yawInitial hf));
     BoardGetImu;
     BoardLedSet (armed hf);
     AltiFuseWithImu (eulerAngles (inner_pipeline hf)) (armed hf);
     AltiModifyDemand;
     StabUpdate (eulerAngles (inner_pipeline hf))
       (snd (getImu P
               (exec P (ReceiverComputeExpo
                          (fsub P (AXIS_YAW (eulerAngles hf)) (yawInitial hf)))
                  (world hf))
               (eulerAngles hf)))].
Proof.
  unfold inner_pipeline, sent. members_simpl.
  destruct (getImu P _ _) as [angles gyro]. members_simpl. cbn [snd].
  destruct (flt P (AXIS_YAW angles) (fzero P)); members_simpl;
    repeat rewrite <- app_assoc; reflexivity.
Qed.

Lemma inner_pipeline_eulerAngles hf :
  eulerAngles (inner_pipeline hf) =
  (let angles :=
     fst (getImu P
            (exec P (ReceiverComputeExpo
                       (fsub P (AXIS_YAW (eulerAngles hf)) (yawInitial hf)))
               (world hf))
            (eulerAngles hf)) in
   if flt P (AXIS_YAW angles) (fzero P)
   then set_yaw (fadd_2pi P (AXIS_YAW angles)) angles
   else angles).
Proof.
  unfold inner_pipeline. members_simpl.
  destruct (getImu P _ _) as [angles gyro]. members_simpl. cbn [fst].
  destruct (flt P (AXIS_YAW angles) (fzero P)); reflexivity.
Qed.

Lemma inner_eulerAngles hf :
  eulerAngles (inner hf) = eulerAngles (inner_pipeline hf).
Proof.
  unfold inner. set (s := inner_pipeline hf). clearbody s. reflexivity.
Qed.

(** X6: One pass of [inner] sends eight commands in this order: expo with
    the yaw relative to [yawInitial], IMU read, LED set to [armed],
    altitude fusion, demand modification, stabilizer update, one mixer
    command, serial update.  The altitude estimator, the stabilizer and
    the serial link all get the orientation that the pass leaves cached
    in [eulerAngles]. *)
Theorem inner_calls hf :
  calls_since hf (inner hf) =
    [ReceiverComputeExpo (fsub P (AXIS_YAW (eulerAngles hf)) (yawInitial hf));
     BoardGetImu;
     BoardLedSet (armed hf);
     AltiFuseWithImu (eulerAngles (inner hf)) (armed hf);
     AltiModifyDemand;
     StabUpdate (eulerAngles (inner hf))
       (snd (getImu P
               (exec P (ReceiverComputeExpo
                          (fsub P (AXIS_YAW (eulerAngles hf)) (yawInitial hf)))
                  (world hf))
               (eulerAngles hf)));
     inner_mixer_call (inner_pipeline hf);
     MspUpdate (eulerAngles (inner hf)) (armed hf)].
Proof.
  apply sent_calls_since.
  pose proof (inner_pipeline_sent_exactly hf) as H1.
  pose proof (inner_sent_since_pipeline hf) as H2.
  destruct (inner_pipeline_kept hf) as (Ka & _).
  rewrite Ka in H2. rewrite inner_eulerAngles.
  exact (sent_trans _ _ _ _ _ H1 H2).
Qed.

(** X7: [inner] changes no member but the cached orientation: it never arms
    or disarms, and leaves [failsafe], [safeToArm], [auxState],
    [yawInitial] and the four task gates alone.  Roll and pitch are
    cached as the board returns them; the yaw is cached as returned when
    it is not below zero and moved up by 2 pi when it is. *)
Theorem inner_changes_only_orientation hf :
  (armed (inner hf) = armed hf /\
   failsafe (inner hf) = failsafe hf /\
   safeToArm (inner hf) = safeToArm hf /\
   auxState (inner hf) = auxState hf /\
   yawInitial (inner hf) = yawInitial hf /\
   innerTask (inner hf) = innerTask hf /\
   outerTask (inner hf) = outerTask hf /\
   angleCheckTask (inner hf) = angleCheckTask hf /\
   altitudeTask (inner hf) = altitudeTask hf) /\
  (let angles :=
     fst (getImu P
            (exec P (ReceiverComputeExpo
                       (fsub P (AXIS_YAW (eulerAngles hf)) (yawInitial hf)))
               (world hf))
            (eulerAngles hf)) in
   AXIS_ROLL (eulerAngles (inner hf)) = AXIS_ROLL angles /\
   AXIS_PITCH (eulerAngles (inner hf)) = AXIS_PITCH angles /\
   AXIS_YAW (eulerAngles (inner hf)) =
     if flt P (AXIS_YAW angles) (fzero P)
     then fadd_2pi P (AXIS_YAW angles) else AXIS_YAW angles).
Proof.
  split; [exact (inner_kept hf)|].
  rewrite inner_eulerAngles, inner_pipeline_eulerAngles. cbn zeta.
  destruct (flt P _ (fzero P)); repeat split.
Qed.

(** *** More on [update] *)

Lemma outer_stays_disarmed hf :
  armed hf = false ->
  failsafe hf = true \/ safeToArm hf = false ->
  armed (outer hf) = false.
Proof.
  intros Hd Hor.
  destruct (members_eq _ _ (outer_refresh_members hf))
    as (Ha & Hf & Hs & _).
  unfold outer, outer_before_aux.
  set (r := outer_refresh hf) in *. clearbody r.
  rewrite Hd in Ha.
  destruct (outer_aux_kept (outer_switch r)) as (Ka & _).
  rewrite Ka. unfold outer_switch.
  destruct (changed P (world r)); [|exact Ha].
  rewrite Ha.
  destruct (armed (outer_arming r)) eqn:E; [|reflexivity].
  apply (outer_arming_armed r Ha) in E.
  destruct E as (_ & E1 & E2 & _).
  destruct Hor as [H|H]; congruence.
Qed.

Lemma update_slow_kept now hf :
  safeToArm (update_slow now hf) = safeToArm hf /\
  eulerAngles (update_slow now hf) = eulerAngles hf /\
  innerTask (update_slow now hf) = innerTask hf /\
  angleCheckTask (update_slow now hf) = angleCheckTask hf.
Proof.
  rewrite update_slow_cases.
  destruct (fst (TimedTask.checkAndUpdate (outerTask hf) now)).
  - destruct (outer_kept
                (set_outerTask
                   (snd (TimedTask.checkAndUpdate (outerTask hf) now)) hf))
      as (_ & Ks & Ke & K1 & _ & K3 & _).
    rewrite Ks, Ke, K1, K3. repeat split.
  - destruct (fst (TimedTask.checkAndUpdate (altitudeTask hf) now));
      repeat split.
Qed.

Lemma update_slow_armed_idle now hf :
  fst (TimedTask.checkAndUpdate (outerTask hf) now) = false ->
  armed (update_slow now hf) = armed hf /\
  auxState (update_slow now hf) = auxState hf /\
  yawInitial (update_slow now hf) = yawInitial hf.
Proof.
  intros H. rewrite update_slow_cases, H.
  destruct (fst (TimedTask.checkAndUpdate (altitudeTask hf) now));
    repeat split.
Qed.

Lemma update_slow_stays_disarmed now hf :
  armed hf = false ->
  failsafe hf = true \/ safeToArm hf = false ->
  armed (update_slow now hf) = false.
Proof.
  intros Hd Hor. rewrite update_slow_cases.
  destruct (fst (TimedTask.checkAndUpdate (outerTask hf) now)).
  - apply outer_stays_disarmed; assumption.
  - destruct (fst (TimedTask.checkAndUpdate (altitudeTask hf) now));
      exact Hd.
Qed.

Lemma update_fast_kept_more now hf :
  safeToArm (update_fast now hf) = safeToArm hf /\
  auxState (update_fast now hf) = auxState hf /\
  yawInitial (update_fast now hf) = yawInitial hf /\
  outerTask (update_fast now hf) = outerTask hf /\
  angleCheckTask (update_fast now hf) = angleCheckTask hf.
Proof.
  rewrite update_fast_cases.
  destruct (fst (TimedTask.checkAndUpdate (innerTask hf) now)).
  - destruct (inner_kept
                (set_innerTask
                   (snd (TimedTask.checkAndUpdate (innerTask hf) now)) hf))
      as (_ & _ & Ks & Kx & Ky & _ & K2 & K3 & _).
    rewrite Ks, Kx, Ky, K2, K3. repeat split.
  - repeat split.
Qed.

Lemma update_angle_kept_more now hf :
  world (update_angle now hf) = world hf /\
  auxState (update_angle now hf) = auxState hf /\
  yawInitial (update_angle now hf) = yawInitial hf /\
  eulerAngles (update_angle now hf) = eulerAngles hf /\
  innerTask (update_angle now hf) = innerTask hf /\
  outerTask (update_angle now hf) = outerTask hf /\
  angleCheckTask (update_angle now hf) = angleCheckTask hf.
Proof.
  unfold update_angle.
  destruct (TimedTask.ready (angleCheckTask hf) now); repeat split.
Qed.

(** What the failsafe step does to the two flags. *)
Lemma update_failsafe_flags s :
  armed (update_failsafe s) = armed s && negb (lostSignal P (world s)) /\
  failsafe (update_failsafe s) =
    failsafe s || (armed s && lostSignal P (world s)).
Proof.
  unfold update_failsafe.
  destruct (armed s) eqn:Ha; destruct (lostSignal P (world s)) eqn:Hl;
    cbn [andb negb]; members_simpl;
    rewrite ?Ha, ?orb_true_r, ?orb_false_r; split; reflexivity.
Qed.

Lemma update_tasks_flags hf :
  armed (update_tasks hf) = armed (update_slow (currentTime hf) hf) /\
  failsafe (update_tasks hf) = failsafe hf.
Proof.
  unfold update_tasks.
  set (now := currentTime hf). clearbody now.
  destruct (update_angle_kept now (update_fast now (update_slow now hf)))
    as (_ & A & F & _).
  destruct (update_fast_kept now (update_slow now hf)) as (A2 & F2 & _).
  rewrite A, F, A2, F2, update_slow_failsafe. split; reflexivity.
Qed.

Lemma update_flags hf :
  armed (update hf) =
    armed (update_tasks hf) && negb (lostSignal P (world (update_tasks hf))) /\
  failsafe (update hf) =
    failsafe hf
    || (armed (update_tasks hf) && lostSignal P (world (update_tasks hf))).
Proof.
  destruct (update_tasks_flags hf) as (_ & F).
  unfold update. rewrite <- F. apply update_failsafe_flags.
Qed.

Lemma update_stays_disarmed hf :
  armed hf = false ->
  failsafe hf = true \/ safeToArm hf = false ->
  armed (update hf) = false.
Proof.
  intros Hd Hor.
  destruct (update_flags hf) as (A & _).
  destruct (update_tasks_flags hf) as (A2 & _).
  rewrite A, A2, (update_slow_stays_disarmed _ hf Hd Hor). reflexivity.
Qed.

(** X8: At the end of every call of [update] the object is not both armed
    and without radio link: if [armed] is true on return, the receiver
    reports no lost signal in the world the call leaves behind. *)
Theorem update_armed_has_signal hf :
  armed (update hf) = true ->
  lostSignal P (world (update hf)) = false /\
  failsafe (update hf) = failsafe hf.
Proof.
  intros H.
  destruct (update_flags hf) as (A & F).
  rewrite A in H. apply andb_true_iff in H. destruct H as (H1 & H2).
  apply negb_true_iff in H2.
  rewrite F, H2, andb_false_r, orb_false_r.
  split; [|reflexivity].
  unfold update, update_failsafe. rewrite H1, H2. exact H2.
Qed.

(** X9: In a call of [update] whose slow gate does not fire, [armed] can only
    go from true to false, and does so exactly when the receiver reports
    a lost signal at line 149: without [outer] there is no arming and no
    pilot disarming. *)
Theorem update_without_outer_armed hf :
  fst (TimedTask.checkAndUpdate (outerTask hf) (currentTime hf)) = false ->
  armed (update hf) =
    armed hf && negb (lostSignal P (world (update_tasks hf))) /\
  auxState (update hf) = auxState hf /\
  yawInitial (update hf) = yawInitial hf.
Proof.
  intros H.
  destruct (update_flags hf) as (A & _).
  destruct (update_tasks_flags hf) as (A2 & _).
  destruct (update_slow_armed_idle _ hf H) as (S1 & S2 & S3).
  rewrite A, A2, S1. split; [reflexivity|].
  unfold update, update_tasks.
  set (now := currentTime hf) in *. clearbody now.
  set (s1 := update_slow now hf) in *. clearbody s1.
  destruct (update_fast_kept_more now s1) as (_ & Fx & Fy & _).
  set (s2 := update_fast now s1) in *. clearbody s2.
  destruct (update_angle_kept_more now s2) as (_ & Gx & Gy & _).
  set (s3 := update_angle now s2) in *. clearbody s3.
  unfold update_failsafe.
  destruct (armed s3 && lostSignal P (world s3)); members_simpl;
    rewrite Gx, Gy, Fx, Fy; split; assumption.
Qed.

(** X10: A disarmed object cannot arm in a call of [update] that starts in
    failsafe or with [safeToArm] false, whatever the receiver reports and
    whichever gates fire: [checkAngle] runs after [outer], so a
    [safeToArm] it sets is of use in a later call only. *)
Theorem update_cannot_arm_unsafe hf :
  armed hf = false ->
  failsafe hf = true \/ safeToArm hf = false ->
  armed (update hf) = false.
Proof. exact (update_stays_disarmed hf). Qed.

Lemma run_stays_disarmed_in_failsafe env hf :
  armed hf = false -> failsafe hf = true ->
  armed (run env hf) = false /\ failsafe (run env hf) = true.
Proof.
  revert hf. induction env as [|e env IH]; intros hf Hd Hf.
  - split; assumption.
  - cbn [run]. apply IH.
    + apply update_stays_disarmed; [exact Hd | left; exact Hf].
    + apply update_keeps_failsafe. exact Hf.
Qed.

(** X11: Once disarmed in failsafe, no sequence of later calls of [update]
    arms again, whatever the receiver, clock and sensors do in between:
    only [init] opens the way back. *)
Theorem failsafe_never_rearms env hf :
  armed hf = false ->
  failsafe hf = true ->
  armed (run env hf) = false /\ failsafe (run env hf) = true.
Proof. exact (run_stays_disarmed_in_failsafe env hf). Qed.

Lemma update_keeps_failsafe_disarmed hf :
  failsafe hf && armed hf = false ->
  failsafe (update hf) && armed (update hf) = false.
Proof.
  intros H.
  destruct (failsafe hf) eqn:Hf.
  - cbn [andb] in H.
    rewrite (update_stays_disarmed hf H (or_introl Hf)). apply andb_false_r.
  - destruct (update_flags hf) as (A & F).
    rewrite A, F, Hf. cbn [orb].
    destruct (armed (update_tasks hf));
      destruct (lostSignal P (world (update_tasks hf))); reflexivity.
Qed.

Lemma run_keeps_failsafe_disarmed env hf :
  failsafe hf && armed hf = false ->
  failsafe (run env hf) && armed (run env hf) = false.
Proof.
  revert hf. induction env as [|e env IH]; intros hf H.
  - exact H.
  - cbn [run]. apply IH. apply update_keeps_failsafe_disarmed. exact H.
Qed.

(** X12: In every state reached from [init] by calls of [update], with the
    outside changing the world at will between calls, [failsafe] and
    [armed] are never both true. *)
Theorem failsafe_excludes_armed (m : Model P) env hf :
  failsafe (run env (init m hf)) && armed (run env (init m hf)) = false.
Proof.
  apply run_keeps_failsafe_disarmed.
  destruct (init_members m hf) as (Ha & Hf & _).
  rewrite Ha, Hf. reflexivity.
Qed.

Lemma set_world_flags (w : World P) s :
  armed (set_world w s) = armed s /\
  failsafe (set_world w s) = failsafe s /\
  safeToArm (set_world w s) = safeToArm s.
Proof. repeat split. Qed.

(** X13: The first call of [update] after [init] never arms, whatever world
    it runs in: [init] leaves [safeToArm] false and [outer] comes before
    [checkAngle]. *)
Theorem first_update_after_init_stays_disarmed (m : Model P) (w : World P) hf :
  armed (update (set_world w (init m hf))) = false.
Proof.
  destruct (init_members m hf) as (Ha & _ & Hs & _).
  destruct (set_world_flags w (init m hf)) as (Wa & _ & Ws).
  apply update_stays_disarmed.
  - rewrite Wa. exact Ha.
  - right. rewrite Ws. exact Hs.
Qed.

Lemma update_failsafe_kept_more s :
  safeToArm (update_failsafe s) = safeToArm s /\
  auxState (update_failsafe s) = auxState s /\
  yawInitial (update_failsafe s) = yawInitial s /\
  eulerAngles (update_failsafe s) = eulerAngles s /\
  innerTask (update_failsafe s) = innerTask s /\
  outerTask (update_failsafe s) = outerTask s /\
  angleCheckTask (update_failsafe s) = angleCheckTask s.
Proof.
  unfold update_failsafe.
  destruct (armed s && lostSignal P (world s)); repeat split.
Qed.

Lemma update_angleCheckTask hf :
  angleCheckTask (update hf) = angleCheckTask hf.
Proof.
  unfold update, update_tasks.
  set (now := currentTime hf). clearbody now.
  destruct (update_slow_kept now hf) as (_ & _ & _ & K1).
  set (s1 := update_slow now hf) in *. clearbody s1.
  destruct (update_fast_kept_more now s1) as (_ & _ & _ & _ & K2).
  set (s2 := update_fast now s1) in *. clearbody s2.
  destruct (update_angle_kept_more now s2) as (_ & _ & _ & _ & _ & _ & K3).
  set (s3 := update_angle now s2) in *. clearbody s3.
  destruct (update_failsafe_kept_more s3) as (_ & _ & _ & _ & _ & _ & K4).
  rewrite K4, K3, K2. exact K1.
Qed.

(** X14: No call of [update] writes the angle-check task: [update] only asks
    it whether it is due (line 144) and no handler restarts it, so
    through any sequence of calls it stays as [init] left it. *)
Theorem angleCheckTask_never_restarted env hf :
  angleCheckTask (run env hf) = angleCheckTask hf.
Proof.
  revert hf. induction env as [|e env IH]; intros hf.
  - reflexivity.
  - cbn [run]. rewrite IH, update_angleCheckTask. reflexivity.
Qed.

(** X15: [safeToArm] changes in a call of [update] only through [checkAngle]:
    when the angle-check task is not due it is what it was, and when it
    is due it is the tilt test on the orientation and the limit that the
    slow and fast steps of the same call leave behind. *)
Theorem update_safeToArm hf :
  safeToArm (update hf) =
  (let s := update_fast (currentTime hf) (update_slow (currentTime hf) hf) in
   if TimedTask.ready (angleCheckTask hf) (currentTime hf)
   then flt P (fabs P (AXIS_ROLL (eulerAngles s))) (maxArmingAngle P (world s))
        && flt P (fabs P (AXIS_PITCH (eulerAngles s))) (maxArmingAngle P (world s))
   else safeToArm hf).
Proof.
  unfold update, update_tasks. cbn zeta.
  set (now := currentTime hf). clearbody now.
  destruct (update_slow_kept now hf) as (S1 & _ & _ & K1).
  set (s1 := update_slow now hf) in *. clearbody s1.
  destruct (update_fast_kept_more now s1) as (S2 & _ & _ & _ & K2).
  set (s2 := update_fast now s1) in *. clearbody s2.
  destruct (update_failsafe_kept_more (update_angle now s2)) as (S4 & _).
  rewrite S4. unfold update_angle. rewrite K2, K1.
  destruct (TimedTask.ready (angleCheckTask hf) now).
  - reflexivity.
  - rewrite S2. exact S1.
Qed.

(** *** [mixer.runArmed] and failsafe *)

Lemma update_slow_sent_no_runArmed now hf :
  exists evs,
    sent hf (update_slow now hf) evs /\ count is_runArmed evs = 0%nat.
Proof.
  rewrite update_slow_cases.
  destruct (fst (TimedTask.checkAndUpdate (outerTask hf) now)).
  - eexists. split.
    + exact (outer_sent_exactly
               (set_outerTask
                  (snd (TimedTask.checkAndUpdate (outerTask hf) now)) hf)).
    + destruct (throttleIsDown P _); destruct (negb _); reflexivity.
  - destruct (fst (TimedTask.checkAndUpdate (altitudeTask hf) now)).
    + exists [AltiComputePid (armed hf)]. split; reflexivity.
    + exists []. split; [|reflexivity].
      unfold sent. members_simpl. symmetry. apply app_nil_r.
Qed.

Lemma inner_mixer_call_in_failsafe s :
  failsafe s = true -> is_runArmed (inner_mixer_call s) = false.
Proof.
  intros Hf. unfold inner_mixer_call. rewrite Hf.
  destruct (negb (armed s)); reflexivity.
Qed.

Lemma inner_sent_no_runArmed hf :
  failsafe hf = true ->
  exists evs, sent hf (inner hf) evs /\ count is_runArmed evs = 0%nat.
Proof.
  intros Hf.
  pose proof (inner_pipeline_sent_exactly hf) as H1.
  pose proof (inner_sent_since_pipeline hf) as H2.
  destruct (inner_pipeline_kept hf) as (_ & Kf & _).
  rewrite Hf in Kf.
  pose proof (inner_mixer_call_in_failsafe _ Kf) as Hm.
  set (s := inner_pipeline hf) in *. clearbody s.
  eexists. split; [exact (sent_trans _ _ _ _ _ H1 H2)|].
  unfold count. cbn [app filter is_runArmed]. rewrite Hm. reflexivity.
Qed.

Lemma update_fast_sent_no_runArmed now hf :
  failsafe hf = true ->
  exists evs,
    sent hf (update_fast now hf) evs /\ count is_runArmed evs = 0%nat.
Proof.
  intros Hf. rewrite update_fast_cases.
  destruct (fst (TimedTask.checkAndUpdate (innerTask hf) now)).
  - exact (inner_sent_no_runArmed
             (set_innerTask
                (snd (TimedTask.checkAndUpdate (innerTask hf) now)) hf) Hf).
  - exists []. split; [|reflexivity].
    unfold sent. members_simpl. symmetry. apply app_nil_r.
Qed.

Lemma update_sent_no_runArmed hf :
  failsafe hf = true ->
  exists evs, sent hf (update hf) evs /\ count is_runArmed evs = 0%nat.
Proof.
  intros Hf. unfold update, update_tasks.
  set (now := currentTime hf). clearbody now.
  destruct (update_slow_sent_no_runArmed now hf) as (e1 & S1 & C1).
  pose proof (update_slow_failsafe now hf) as F1. rewrite Hf in F1.
  set (s1 := update_slow now hf) in *. clearbody s1.
  destruct (update_fast_sent_no_runArmed now s1 F1) as (e2 & S2 & C2).
  set (s2 := update_fast now s1) in *. clearbody s2.
  destruct (update_angle_kept now s2) as (L3 & _).
  pose proof (update_failsafe_sent (update_angle now s2)) as S4.
  set (s3 := update_angle now s2) in *. clearbody s3.
  assert (S3 : sent hf s3 (e1 ++ e2)).
  { unfold sent. rewrite L3. exact (sent_trans _ _ _ _ _ S1 S2). }
  eexists. split; [exact (sent_trans _ _ _ _ _ S3 S4)|].
  rewrite !count_app, C1, C2.
  destruct (armed s3 && lostSignal P (world s3)); reflexivity.
Qed.

Lemma run_sent_no_runArmed env hf :
  failsafe hf = true ->
  exists evs, sent hf (run env hf) evs /\ count is_runArmed evs = 0%nat.
Proof.
  revert hf. induction env as [|e env IH]; intros hf Hf.
  - exists []. split; [apply sent_nil | reflexivity].
  - cbn [run].
    destruct (update_sent_no_runArmed (set_world (e (world hf)) hf) Hf)
      as (e1 & S1 & C1).
    pose proof (update_keeps_failsafe (set_world (e (world hf)) hf) Hf) as F1.
    set (s1 := update (set_world (e (world hf)) hf)) in *. clearbody s1.
    destruct (IH s1 F1) as (e2 & S2 & C2).
    exists (e1 ++ e2). split.
    + unfold sent in *. rewrite S2, S1. members_simpl.
      symmetry. apply app_assoc.
    + rewrite count_app, C1, C2. reflexivity.
Qed.

(** X16: Once [failsafe] is set, no call of [update] sends [mixer.runArmed]
    again, over any number of calls and whatever the receiver reports,
    even in a state left armed. *)
Theorem failsafe_never_runs_armed env hf :
  failsafe hf = true ->
  count is_runArmed (calls_since hf (run env hf)) = 0%nat.
Proof.
  intros Hf.
  destruct (run_sent_no_runArmed env hf Hf) as (evs & S & C).
  rewrite (sent_calls_since _ _ _ S). exact C.
Qed.

(** X17: A call of [update] in which no gate fires and the failsafe test
    fails sends no command and changes neither the world nor any flag,
    [auxState], [yawInitial] or the cached orientation. *)
Theorem update_idle hf :
  fst (TimedTask.checkAndUpdate (outerTask hf) (currentTime hf)) = false ->
  fst (TimedTask.checkAndUpdate (altitudeTask hf) (currentTime hf)) = false ->
  fst (TimedTask.checkAndUpdate (innerTask hf) (currentTime hf)) = false ->
  TimedTask.ready (angleCheckTask hf) (currentTime hf) = false ->
  armed hf && lostSignal P (world hf) = false ->
  calls_since hf (update hf) = [] /\
  world (update hf) = world hf /\
  members (update hf) = members hf.
Proof.
  intros H1 H2 H3 H4 H5.
  unfold update, update_tasks.
  set (now := currentTime hf) in *. clearbody now.
  rewrite update_slow_cases, H1, H2.
  rewrite update_fast_cases. members_simpl. rewrite H3.
  unfold update_angle. members_simpl. rewrite H4.
  unfold update_failsafe. members_simpl. rewrite H5.
  split; [|split; reflexivity].
  apply sent_calls_since. unfold sent. members_simpl.
  symmetry. apply app_nil_r.
Qed.

(** *** More on [flashLed] and [init] *)

(** The [n] rounds of the loop of [flashLed]: four commands per round,
    LED and delay commands only, the LED switched on once per round and
    waited for twice. *)
Lemma flashLed_loop_sent n pause hf :
  exists evs,
    sent hf (flashLed_loop n pause hf) evs /\
    length evs = (4 * n)%nat /\
    forallb is_flash_call evs = true /\
    count is_led_on evs = n /\
    total_delay evs = 2 * Z.of_nat n * pause.
Proof.
  revert hf. induction n as [|n IH]; intros hf.
  - exists []. repeat split. apply sent_nil.
  - cbn [flashLed_loop].
    destruct (IH (call (BoardDelayMilliseconds pause)
                    (call (BoardLedSet false)
                       (call (BoardDelayMilliseconds pause)
                          (call (BoardLedSet true) hf)))))
      as (evs & S & L & A & C & D).
    exists ([BoardLedSet true; BoardDelayMilliseconds pause;
             BoardLedSet false; BoardDelayMilliseconds pause] ++ evs).
    split; [|split; [|split; [|split]]].
    + unfold sent in *. rewrite S. members_simpl.
      repeat rewrite <- app_assoc. reflexivity.
    + cbn [app length]. rewrite L. lia.
    + cbn [app forallb is_flash_call andb]. exact A.
    + unfold count in *. cbn [app filter is_led_on length]. rewrite C.
      reflexivity.
    + cbn [app total_delay fold_right].
      change (fold_right _ 0 evs) with (total_delay evs). rewrite D. lia.
Qed.

Lemma flashLed_sent hf :
  exists evs,
    sent hf (flashLed hf) (BoardLedSet false :: evs ++ [BoardLedSet false]) /\
    forallb is_flash_call evs = true /\
    count is_led_on evs = Z.to_nat ledFlashCount /\
    total_delay evs = 2 * ledFlashMilli.
Proof.
  unfold flashLed.
  destruct (flashLed_loop_sent (Z.to_nat ledFlashCount)
              (to_u32 (ledFlashMilli / ledFlashCount))
              (call (BoardLedSet false) hf))
    as (evs & S & _ & A & C & D).
  set (s := flashLed_loop _ _ _) in *. clearbody s.
  exists evs. split; [|split; [exact A|split; [exact C|]]].
  - unfold sent in *. members_simpl. rewrite S. members_simpl.
    repeat rewrite <- app_assoc. reflexivity.
  - rewrite D. reflexivity.
Qed.

(** X18: [flashLed] starts and ends with the LED switched off, switches it on
    [ledFlashCount] = 20 times in between, sends LED and delay commands
    only, and asks for 2 * [ledFlashMilli] = 2000 ms of delay in all (each
    of the 20 rounds waits [ledFlashMilli / ledFlashCount] twice); it
    changes no flag, [auxState], [yawInitial] or orientation. *)
Theorem flashLed_calls hf :
  (exists evs,
     calls_since hf (flashLed hf)
       = BoardLedSet false :: evs ++ [BoardLedSet false] /\
     forallb is_flash_call evs = true /\
     count is_led_on evs = 20%nat /\
     total_delay evs = 2000) /\
  members (flashLed hf) = members hf.
Proof.
  split; [|apply flashLed_members].
  destruct (flashLed_sent hf) as (evs & S & A & C & D).
  exists evs. split; [apply sent_calls_since; exact S|].
  split; [exact A|]. split; [exact C | exact D].
Qed.

Lemma forallb_flash_no_mixer evs :
  forallb is_flash_call evs = true -> count is_mixer_call evs = 0%nat.
Proof.
  induction evs as [|c evs IH]; intros H.
  - reflexivity.
  - cbn [forallb] in H. apply andb_true_iff in H. destruct H as (Hc & H).
    unfold count in *. cbn [filter].
    destruct c; try discriminate Hc; cbn [is_mixer_call]; apply IH; exact H.
Qed.

(** X19: [init] sends [board->init()] first, then the LED flashing, then the
    100 ms delay and the initialisation of receiver, stabilizer, mixer,
    serial link and altitude estimator, once each and in this order; it
    sends no motor command to the mixer. *)
Theorem init_calls (m : Model P) hf :
  exists flash,
    calls_since hf (init m hf) =
      BoardInit :: flash ++
      [BoardDelayMilliseconds 100; ReceiverInit; StabInit m; MixerInit;
       MspInit; AltiInit m] /\
    forallb is_flash_call flash = true /\
    count is_mixer_call (calls_since hf (init m hf)) = 0%nat.
Proof.
  destruct (flashLed_sent (call BoardInit hf)) as (evs & S & A & _).
  assert (Hs : sent hf (init m hf)
                 (BoardInit :: (BoardLedSet false :: evs ++ [BoardLedSet false])
                  ++ [BoardDelayMilliseconds 100; ReceiverInit; StabInit m;
                      MixerInit; MspInit; AltiInit m])).
  { unfold init.
    set (s := flashLed (call BoardInit hf)) in *. clearbody s.
    unfold sent in *. members_simpl. rewrite S. members_simpl.
    repeat rewrite <- app_assoc. reflexivity. }
  assert (Hf : forallb is_flash_call
                 (BoardLedSet false :: evs ++ [BoardLedSet false]) = true).
  { cbn [forallb is_flash_call andb]. rewrite forallb_app, A. reflexivity. }
  exists (BoardLedSet false :: evs ++ [BoardLedSet false]).
  rewrite (sent_calls_since _ _ _ Hs).
  split; [reflexivity|]. split; [exact Hf|].
  change (BoardInit :: (BoardLedSet false :: evs ++ [BoardLedSet false]) ++
          [BoardDelayMilliseconds 100; ReceiverInit; StabInit m; MixerInit;
           MspInit; AltiInit m])
    with ([@BoardInit (float P) (Model P)]
          ++ (BoardLedSet false :: evs ++ [BoardLedSet false])
          ++ [BoardDelayMilliseconds 100; ReceiverInit; StabInit m; MixerInit;
              MspInit; AltiInit m]).
  rewrite !count_app, (forallb_flash_no_mixer _ Hf). reflexivity.
Qed.

End OrchestratorFacts.

(** ** The theorems at work on the simulation double *)

(** C1 at work: armed, all gates due at t = 20 ms, link lost. *)
Lemma update_failsafe_cuts_witness :
  armed (update_tasks Sim.flying_link_lost) = true /\
  lostSignal Sim.platform (world (update_tasks Sim.flying_link_lost)) = true /\
  armed (update Sim.flying_link_lost) = false /\
  failsafe (update Sim.flying_link_lost) = true /\
  calls_since (update_tasks Sim.flying_link_lost) (update Sim.flying_link_lost)
    = [MixerCutMotors; BoardLedSet false].
Proof.
  assert (Ha : armed (update_tasks Sim.flying_link_lost) = true)
    by (vm_compute; reflexivity).
  assert (Hl : lostSignal Sim.platform
                 (world (update_tasks Sim.flying_link_lost)) = true)
    by (vm_compute; reflexivity).
  destruct (update_failsafe_cuts Sim.platform Sim.flying_link_lost Ha Hl)
    as (_ & H1 & H2 & H3 & _).
  repeat split; assumption.
Defined.

(** C2 at work: level, not in failsafe, aux at zero, arming sticks. *)
Lemma outer_arms_iff_witness :
  armed (Sim.ready_to_arm (Sim.arm_request_with_aux 0)) = false /\
  armed (outer (Sim.ready_to_arm (Sim.arm_request_with_aux 0))) = true /\
  yawInitial (outer (Sim.ready_to_arm (Sim.arm_request_with_aux 0))) = 0.
Proof.
  assert (Hd : armed (Sim.ready_to_arm (Sim.arm_request_with_aux 0)) = false)
    by (vm_compute; reflexivity).
  destruct (outer_arms_iff Sim.platform _ Hd) as (Hiff & Hyaw).
  assert (Ha : armed (outer (Sim.ready_to_arm (Sim.arm_request_with_aux 0)))
               = true).
  { apply Hiff. repeat split; vm_compute; reflexivity. }
  split; [exact Hd|]. split; [exact Ha|].
  rewrite Hyaw, Ha. vm_compute. reflexivity.
Defined.

(** C3 at work: failsafe was set by the tick with the lost link; the link
    comes back and three more ticks run. *)
Lemma failsafe_is_sticky_witness :
  failsafe (update Sim.flying_link_lost) = true /\
  failsafe (run (P := Sim.platform) [Sim.link_back; Sim.link_back; Sim.link_back]
              (update Sim.flying_link_lost)) = true /\
  lostSignal Sim.platform
    (world (run (P := Sim.platform) [Sim.link_back; Sim.link_back; Sim.link_back]
              (update Sim.flying_link_lost))) = false.
Proof.
  assert (Hf : failsafe (update Sim.flying_link_lost) = true)
    by (vm_compute; reflexivity).
  destruct (failsafe_is_sticky Sim.platform _ Hf) as (_ & _ & _ & _ & Hrun & _).
  split; [exact Hf|]. split; [apply Hrun|].
  vm_compute. reflexivity.
Defined.


(** C5 at its failing input: disarmed, level, not in failsafe, arming
    sticks with the aux switch at 1 while [auxState] is 0.  The request is
    refused, yet [auxState] has become 1 in the arming block, and the pass
    then sends no [alti.handleAuxSwitch]: the switch change is lost to the
    altitude controller. *)
Lemma refused_arming_overwrites_auxState :
  arming Sim.platform (world (Sim.ready_to_arm (Sim.arm_request_with_aux 1)))
    = true /\
  armed (outer_arming (Sim.ready_to_arm (Sim.arm_request_with_aux 1))) = false /\
  auxState (Sim.ready_to_arm (Sim.arm_request_with_aux 1)) = 0 /\
  auxState (outer_arming (Sim.ready_to_arm (Sim.arm_request_with_aux 1))) = 1 /\
  getAuxState Sim.platform
    (world (Sim.ready_to_arm (Sim.arm_request_with_aux 1))) = 1 /\
  count is_handleAuxSwitch
    (calls_since (Sim.ready_to_arm (Sim.arm_request_with_aux 1))
       (outer (Sim.ready_to_arm (Sim.arm_request_with_aux 1)))) = 0%nat.
Proof.
  repeat split; vm_compute; reflexivity.
Qed.

(** C4 at work: at t = 20 ms the slow gate fires and [outer] runs without
    [alti.computePid]; at t = 25 ms only the altitude gate fires. *)
Lemma slow_and_altitude_exclusive_witness :
  (count is_receiverUpdate (calls_since Sim.first_tick (update Sim.first_tick))
     = 1%nat /\
   count is_computePid (calls_since Sim.first_tick (update Sim.first_tick))
     = 0%nat) /\
  (count is_receiverUpdate (calls_since Sim.second_tick (update Sim.second_tick))
     = 0%nat /\
   In (AltiComputePid false)
     (calls_since Sim.second_tick (update Sim.second_tick))).
Proof.
  split.
  - destruct (slow_and_altitude_exclusive Sim.platform Sim.first_tick)
      as (R & C & _ & _).
    rewrite R, C. split; vm_compute; reflexivity.
  - destruct (slow_and_altitude_exclusive Sim.platform Sim.second_tick)
      as (R & _ & _ & I).
    rewrite R. split; [vm_compute; reflexivity|].
    apply I; vm_compute; reflexivity.
Defined.

(** C7 at work: armed, not in failsafe, throttle up. *)
Lemma inner_one_mixer_dispatch_witness :
  count is_mixer_call
    (calls_since Sim.flying_link_lost (inner Sim.flying_link_lost)) = 1%nat /\
  In (MixerRunArmed 500 0 0 0)
    (calls_since Sim.flying_link_lost (inner Sim.flying_link_lost)).
Proof.
  destruct (inner_one_mixer_dispatch Sim.platform Sim.flying_link_lost)
    as (H1 & _ & H3 & _).
  split; [exact H1|].
  apply H3; vm_compute; reflexivity.
Defined.

(** C9 at work: [auxState] is 0 and the pilot has moved the aux switch
    to 1. *)
Lemma outer_aux_edge_witness :
  auxState (Sim.booted Sim.bench_aux_1) = 0 /\
  auxState (outer (Sim.booted Sim.bench_aux_1)) = 1 /\
  calls_since (outer_before_aux (Sim.booted Sim.bench_aux_1))
    (outer (Sim.booted Sim.bench_aux_1)) = [AltiHandleAuxSwitch 1 0] /\
  count is_handleAuxSwitch
    (calls_since (Sim.booted Sim.bench_aux_1)
       (outer (Sim.booted Sim.bench_aux_1))) = 1%nat.
Proof.
  destruct (outer_aux_edge Sim.platform (Sim.booted Sim.bench_aux_1))
    as (Hedge & _).
  assert (Hne : getAuxState Sim.platform
                  (world (outer_before_aux (Sim.booted Sim.bench_aux_1)))
                <> auxState (outer_before_aux (Sim.booted Sim.bench_aux_1)))
    by (vm_compute; discriminate).
  destruct (Hedge Hne) as (H1 & H2 & H3).
  split; [vm_compute; reflexivity|].
  split; [rewrite H1; vm_compute; reflexivity|].
  split; [rewrite H2; vm_compute; reflexivity | exact H3].
Defined.

(** ** [IMU::init] *)

(** X20: [IMU::init] hands the board to [imuInit], sets [accelSum[0]],
    [accelSumCount] and [accelTimeSum] to zero and leaves [accelSum[1]]
    and [accelSum[2]] as they were: the three rounds of its loop all
    write index 0.  The two public arrays are not touched. *)
Theorem IMU_init_zeroes_first_cell_only
    {B : Type} (imuInit : B -> B) (b : B) (imu : IMU.t) :
  fst (IMU.init imuInit b imu) = imuInit b /\
  IMU.get3 (IMU.accelSum (snd (IMU.init imuInit b imu))) 0 = 0 /\
  IMU.get3 (IMU.accelSum (snd (IMU.init imuInit b imu))) 1
    = IMU.get3 (IMU.accelSum imu) 1 /\
  IMU.get3 (IMU.accelSum (snd (IMU.init imuInit b imu))) 2
    = IMU.get3 (IMU.accelSum imu) 2 /\
  IMU.accelSumCount (snd (IMU.init imuInit b imu)) = 0 /\
  IMU.accelTimeSum (snd (IMU.init imuInit b imu)) = 0 /\
  IMU.eulerAngles (snd (IMU.init imuInit b imu)) = IMU.eulerAngles imu /\
  IMU.gyroRaw (snd (IMU.init imuInit b imu)) = IMU.gyroRaw imu.
Proof.
  destruct imu as [[[x y] z] n t e g].
  repeat split.
Qed.

(** ** More theorems at work on the simulation double *)

(** Landed and armed, disarming sticks: [outer] disarms. *)
Lemma outer_disarms_iff_witness :
  armed Sim.landed_armed = true /\
  armed (outer Sim.landed_armed) = false /\
  yawInitial (outer Sim.landed_armed) = yawInitial Sim.landed_armed.
Proof.
  assert (Ha : armed Sim.landed_armed = true) by (vm_compute; reflexivity).
  destruct (outer_disarms_iff Sim.platform _ Ha) as (Hiff & Hy).
  split; [exact Ha|]. split; [|exact Hy].
  apply Hiff. split; vm_compute; reflexivity.
Defined.

(** Arming sticks with the aux switch at 1 and [auxState] at 0. *)
Lemma outer_arm_request_hides_aux_change_witness :
  getAuxState Sim.platform
    (world (Sim.ready_to_arm (Sim.arm_request_with_aux 1)))
    <> auxState (Sim.ready_to_arm (Sim.arm_request_with_aux 1)) /\
  count is_handleAuxSwitch
    (calls_since (Sim.ready_to_arm (Sim.arm_request_with_aux 1))
       (outer (Sim.ready_to_arm (Sim.arm_request_with_aux 1)))) = 0%nat.
Proof.
  split; [vm_compute; discriminate|].
  assert (Hd : armed (Sim.ready_to_arm (Sim.arm_request_with_aux 1)) = false)
    by (vm_compute; reflexivity).
  assert (Hf : failsafe (Sim.ready_to_arm (Sim.arm_request_with_aux 1)) = false)
    by (vm_compute; reflexivity).
  assert (Hs : safeToArm (Sim.ready_to_arm (Sim.arm_request_with_aux 1)) = true)
    by (vm_compute; reflexivity).
  assert (Hc : changed Sim.platform
                 (world (outer_refresh
                           (Sim.ready_to_arm (Sim.arm_request_with_aux 1))))
               = true) by (vm_compute; reflexivity).
  assert (Hr : arming Sim.platform
                 (world (outer_refresh
                           (Sim.ready_to_arm (Sim.arm_request_with_aux 1))))
               = true) by (vm_compute; reflexivity).
  exact (outer_arm_request_hides_aux_change Sim.platform _ Hd Hf Hs Hc Hr).
Defined.

(** Armed and flying with the link up: still armed after the tick. *)
Lemma update_armed_has_signal_witness :
  armed (update Sim.flying) = true /\
  lostSignal Sim.platform (world (update Sim.flying)) = false.
Proof.
  assert (Ha : armed (update Sim.flying) = true) by (vm_compute; reflexivity).
  destruct (update_armed_has_signal Sim.platform _ Ha) as (Hl & _).
  split; assumption.
Defined.

(** The tick at t = 25 ms, where the slow gate is not due. *)
Lemma update_without_outer_armed_witness :
  fst (TimedTask.checkAndUpdate (outerTask Sim.second_tick)
         (currentTime Sim.second_tick)) = false /\
  armed (update Sim.second_tick) = false /\
  auxState (update Sim.second_tick) = auxState Sim.second_tick.
Proof.
  assert (H : fst (TimedTask.checkAndUpdate (outerTask Sim.second_tick)
                     (currentTime Sim.second_tick)) = false)
    by (vm_compute; reflexivity).
  destruct (update_without_outer_armed Sim.platform _ H) as (Ha & Hx & _).
  split; [exact H|]. split; [|exact Hx].
  rewrite Ha. vm_compute. reflexivity.
Defined.

(** Arming sticks right after [init], before any angle check. *)
Lemma update_cannot_arm_unsafe_witness :
  arming Sim.platform (world (Sim.booted (Sim.arm_request_with_aux 0))) = true /\
  armed (update (Sim.booted (Sim.arm_request_with_aux 0))) = false.
Proof.
  split; [vm_compute; reflexivity|].
  assert (Hd : armed (Sim.booted (Sim.arm_request_with_aux 0)) = false)
    by (vm_compute; reflexivity).
  assert (Hs : safeToArm (Sim.booted (Sim.arm_request_with_aux 0)) = false)
    by (vm_compute; reflexivity).
  exact (update_cannot_arm_unsafe Sim.platform _ Hd (or_intror Hs)).
Defined.

(** After the failsafe tick the link is back, the craft is level and the
    pilot holds the arming sticks for three slow periods. *)
Lemma failsafe_never_rearms_witness :
  armed (run (P := Sim.platform)
           [fun _ => Sim.arm_request_with_aux 0;
            fun w => Sim.link_back (Sim.link_back w);
            fun _ => Sim.mkWorld 600000 false true true true false 0 0
                       Sim.level Sim.level 436]
           (update Sim.flying_link_lost)) = false.
Proof.
  assert (Ha : armed (update Sim.flying_link_lost) = false)
    by (vm_compute; reflexivity).
  assert (Hf : failsafe (update Sim.flying_link_lost) = true)
    by (vm_compute; reflexivity).
  exact (proj1 (failsafe_never_rearms Sim.platform _ _ Ha Hf)).
Defined.

(** In failsafe but left armed, link back, throttle up: three ticks. *)
Lemma failsafe_never_runs_armed_witness :
  count is_runArmed
    (calls_since (set_armed true (update Sim.flying_link_lost))
       (run (P := Sim.platform)
          [fun _ => Sim.mkWorld 30000 false false false false false 0 500
                      Sim.level Sim.level 436;
           Sim.link_back; Sim.link_back]
          (set_armed true (update Sim.flying_link_lost)))) = 0%nat.
Proof.
  assert (Hf : failsafe (set_armed true (update Sim.flying_link_lost)) = true)
    by (vm_compute; reflexivity).
  exact (failsafe_never_runs_armed Sim.platform _ _ Hf).
Defined.

(** One microsecond after a tick in which everything due has run. *)
Lemma update_idle_witness :
  calls_since Sim.nothing_due (update Sim.nothing_due) = [] /\
  world (update Sim.nothing_due) = world Sim.nothing_due.
Proof.
  assert (H1 : fst (TimedTask.checkAndUpdate (outerTask Sim.nothing_due)
                      (currentTime Sim.nothing_due)) = false)
    by (vm_compute; reflexivity).
  assert (H2 : fst (TimedTask.checkAndUpdate (altitudeTask Sim.nothing_due)
                      (currentTime Sim.nothing_due)) = false)
    by (vm_compute; reflexivity).
  assert (H3 : fst (TimedTask.checkAndUpdate (innerTask Sim.nothing_due)
                      (currentTime Sim.nothing_due)) = false)
    by (vm_compute; reflexivity).
  assert (H4 : TimedTask.ready (angleCheckTask Sim.nothing_due)
                 (currentTime Sim.nothing_due) = false)
    by (vm_compute; reflexivity).
  assert (H5 : armed Sim.nothing_due
               && lostSignal Sim.platform (world Sim.nothing_due) = false)
    by (vm_compute; reflexivity).
  destruct (update_idle Sim.platform _ H1 H2 H3 H4 H5) as (C & W & _).
  split; assumption.
Defined.
